(** * Rotating log sink: a shallow embedding of [logging_with_rotation.py]

    The module is a thin configuration layer over CPython's [logging]
    package: [create_rotating_logger] builds a [TimedRotatingFileHandler]
    and an optional [StreamHandler] and installs them on a named logger.
    The behaviour the specification talks about (rotation, archive naming,
    retention, error handling on emit) is therefore decided by the methods
    of [logging] and [logging.handlers] that the module calls.  They are
    embedded here method by method, under the names they have in CPython
    3.11, next to the two functions of the module itself. *)

From Stdlib Require Import ZArith String Ascii List Lia Bool.
From stdpp Require Import base option gmap strings list.

Local Open Scope string_scope.
Local Open Scope Z_scope.

(** ** Python [str] operations used by the code *)

Module Str.

(** [s.startswith(p)] *)
Fixpoint startswith (p s : string) : bool :=
  match p, s with
  | EmptyString, _ => true
  | String a p', String b s' => if Ascii.eqb a b then startswith p' s' else false
  | String _ _, EmptyString => false
  end.

(** [s[:n]] and [s[n:]] for [0 <= n] *)
Fixpoint take (n : nat) (s : string) : string :=
  match n, s with
  | S n', String a s' => String a (take n' s')
  | _, _ => EmptyString
  end.

Fixpoint drop (n : nat) (s : string) : string :=
  match n, s with
  | S n', String _ s' => drop n' s'
  | _, _ => s
  end.

(** [s.upper()] on the ASCII letters *)
Definition upper_char (c : ascii) : ascii :=
  let n := nat_of_ascii c in
  if (97 <=? n)%nat && (n <=? 122)%nat then ascii_of_nat (n - 32) else c.

Fixpoint upper (s : string) : string :=
  match s with
  | EmptyString => EmptyString
  | String c s' => String (upper_char c) (upper s')
  end.

(** [s.split(sep)] for a one-character separator: the pieces between
    the separators, empty pieces included. *)
Fixpoint split_aux (sep : ascii) (cur : string) (s : string) : list string :=
  match s with
  | EmptyString => [cur]
  | String c s' =>
      if Ascii.eqb c sep then cur :: split_aux sep EmptyString s'
      else split_aux sep (cur +:+ String c EmptyString) s'
  end.

Definition split (sep : ascii) (s : string) : list string :=
  split_aux sep EmptyString s.

(** [s.rfind(c)] as an [option]: the index of the last occurrence. *)
Fixpoint rfind_aux (c : ascii) (s : string) (i : nat) (last : option nat) : option nat :=
  match s with
  | EmptyString => last
  | String a s' => rfind_aux c s' (S i) (if Ascii.eqb a c then Some i else last)
  end.

Definition rfind (c : ascii) (s : string) : option nat := rfind_aux c s 0 None.

(** [s.rstrip(c)] *)
Fixpoint rstrip (c : ascii) (s : string) : string :=
  match s with
  | EmptyString => EmptyString
  | String a s' =>
      match rstrip c s' with
      | EmptyString => if Ascii.eqb a c then EmptyString else String a EmptyString
      | r => String a r
      end
  end.

(** every character of [s] is [c] (true on the empty string) *)
Fixpoint all_char (c : ascii) (s : string) : bool :=
  match s with
  | EmptyString => true
  | String a s' => Ascii.eqb a c && all_char c s'
  end.

(** [a <= b] on [str]: lexicographic by code point *)
Definition le (a b : string) : bool := String.leb a b.

(** [l.sort()] on a list of [str].  The order is total and equal strings
    are identical, so the result does not depend on the algorithm. *)
Fixpoint insert_sorted (x : string) (l : list string) : list string :=
  match l with
  | [] => [x]
  | y :: l' => if le x y then x :: y :: l' else y :: insert_sorted x l'
  end.

Fixpoint sort (l : list string) : list string :=
  match l with
  | [] => []
  | x :: l' => insert_sorted x (sort l')
  end.

End Str.

(** ** [posixpath] *)

Module Path.

Definition sep : ascii := "/"%char.

(** [os.path.join(a, b)] *)
Definition join (a b : string) : string :=
  if Str.startswith "/" b then b
  else if (String.eqb a "" || String.eqb (Str.drop (String.length a - 1) a) "/")%bool
       then a +:+ b
       else a +:+ "/" +:+ b.

(** [os.path.split(p)] *)
Definition split (p : string) : string * string :=
  let i := match Str.rfind sep p with Some k => S k | None => O end in
  let head := Str.take i p in
  let tail := Str.drop i p in
  let head' :=
    if (negb (String.eqb head "") && negb (Str.all_char sep head))%bool
    then Str.rstrip sep head else head in
  (head', tail).

(** [os.path.splitext(p)] for a [p] without separator (a base name):
    the extension starts at the last dot, unless only dots precede it. *)
Definition splitext (p : string) : string * string :=
  match Str.rfind "."%char p with
  | Some dotIndex =>
      if Str.all_char "."%char (Str.take dotIndex p) then (p, "")
      else (Str.take dotIndex p, Str.drop dotIndex p)
  | None => (p, "")
  end.

End Path.

(** ** [time]: broken-down times and [strftime] *)

(** The fields of [time.struct_time] the code reads: [t[3]], [t[4]],
    [t[5]] (clock), [t[6]] (weekday, Monday is 0), [t[-1]] (DST flag) and,
    through [strftime], the date. *)
Record struct_time := mk_tm {
  tm_year : Z; tm_mon : Z; tm_mday : Z;
  tm_hour : Z; tm_min : Z; tm_sec : Z;
  tm_wday : Z; tm_isdst : Z
}.

Module Time.

Definition digit (n : Z) : ascii := ascii_of_nat (48 + Z.to_nat (n mod 10)).

(** the decimal digits of [n >= 0], most significant first *)
Fixpoint digits (fuel : nat) (n : Z) : string :=
  match fuel with
  | O => ""
  | S f =>
      if n <? 10 then String (digit n) ""
      else digits f (n / 10) +:+ String (digit n) ""
  end.

Definition decimal (n : Z) : string := digits (S (Z.to_nat (Z.log2 n))) n.

(** a number printed in at least [w] digits, padded with zeros *)
Definition zpad (w : nat) (n : Z) : string :=
  let s := decimal n in
  string_of_list_ascii (repeat "0"%char (w - String.length s)) +:+ s.

(** one conversion of [strftime]; the module's formats use these six *)
Definition directive (c : ascii) (t : struct_time) : option string :=
  if Ascii.eqb c "Y" then Some (zpad 4 (tm_year t))
  else if Ascii.eqb c "m" then Some (zpad 2 (tm_mon t))
  else if Ascii.eqb c "d" then Some (zpad 2 (tm_mday t))
  else if Ascii.eqb c "H" then Some (zpad 2 (tm_hour t))
  else if Ascii.eqb c "M" then Some (zpad 2 (tm_min t))
  else if Ascii.eqb c "S" then Some (zpad 2 (tm_sec t))
  else None.

(** [time.strftime(fmt, t)]: conversions replaced, every other
    character copied. *)
Fixpoint strftime (fmt : string) (t : struct_time) : string :=
  match fmt with
  | EmptyString => EmptyString
  | String c rest =>
      if Ascii.eqb c "%" then
        match rest with
        | String d rest' =>
            match directive d t with
            | Some s => s +:+ strftime rest' t
            | None => String c (String d (strftime rest' t))
            end
        | EmptyString => String c EmptyString
        end
      else String c (strftime rest t)
  end.

(** [time.gmtime]: the proleptic Gregorian calendar on seconds since the
    epoch.  It is the [localtime] of a process whose zone is UTC and
    serves as the concrete clock of the examples below. *)
Definition civil_from_days (days : Z) : Z * Z * Z :=
  let z := days + 719468 in
  let era := z / 146097 in
  let doe := z - era * 146097 in
  let yoe := (doe - doe / 1460 + doe / 36524 - doe / 146096) / 365 in
  let y := yoe + era * 400 in
  let doy := doe - (365 * yoe + yoe / 4 - yoe / 100) in
  let mp := (5 * doy + 2) / 153 in
  let d := doy - (153 * mp + 2) / 5 + 1 in
  let m := if mp <? 10 then mp + 3 else mp - 9 in
  (if m <=? 2 then y + 1 else y, m, d).

Definition gmtime (t : Z) : struct_time :=
  let days := t / 86400 in
  let secs := t mod 86400 in
  let '(y, m, d) := civil_from_days days in
  {| tm_year := y; tm_mon := m; tm_mday := d;
     tm_hour := secs / 3600; tm_min := (secs mod 3600) / 60; tm_sec := secs mod 60;
     tm_wday := (days + 3) mod 7; tm_isdst := 0 |}.

End Time.

(** ** [re]: the patterns of [TimedRotatingFileHandler.extMatch]

    Every pattern the handler compiles has the shape
    [^ atoms (\.\w+)? $] where the atoms are [\d] or a literal character;
    [re.ASCII] makes [\d] the ten digits and [\w] the letters, the digits
    and the underscore.  [$] matches at the end and before a final
    newline. *)
Module Re.

Inductive atom := D | C (c : ascii).

Definition is_digit (c : ascii) : bool :=
  let n := nat_of_ascii c in (48 <=? n)%nat && (n <=? 57)%nat.

Definition is_word (c : ascii) : bool :=
  let n := nat_of_ascii c in
  is_digit c || ((65 <=? n)%nat && (n <=? 90)%nat)
  || ((97 <=? n)%nat && (n <=? 122)%nat) || (n =? 95)%nat.

Definition at_end (s : string) : bool :=
  String.eqb s "" || String.eqb s (String (ascii_of_nat 10) "").

(** [\w*$] *)
Fixpoint words_then_end (s : string) : bool :=
  at_end s ||
  match s with
  | String c r => is_word c && words_then_end r
  | EmptyString => false
  end.

(** [(\.\w+)?$] *)
Definition tail (s : string) : bool :=
  at_end s ||
  match s with
  | String dot (String c r) =>
      Ascii.eqb dot "." && is_word c && words_then_end r
  | _ => false
  end.

(** [pattern.match(s)] for the pattern [^ atoms (\.\w+)? $] *)
Fixpoint match_ (atoms : list atom) (s : string) : bool :=
  match atoms with
  | [] => tail s
  | a :: atoms' =>
      match s with
      | String c r =>
          (match a with D => is_digit c | C x => Ascii.eqb c x end)
          && match_ atoms' r
      | EmptyString => false
      end
  end.

(** [\d{n}] *)
Definition d (n : nat) : list atom := repeat D n.
Definition lit (c : ascii) : list atom := [C c].

End Re.

(** ** The process state

    Handlers and loggers are Python objects that the code mutates in
    place and shares by reference (a logger's [handlers] list holds the
    handler objects; [logging.getLogger] hands out the one logger object
    of a name).  Handlers therefore live in a heap keyed by object
    identity, and loggers in the manager's [loggerDict]. *)

Inductive handler_class := TimedRotatingFileHandler | StreamHandler.

Record Handler := mk_handler {
  h_class : handler_class;
  level : Z;
  formatter : option string;       (* format string of the [Formatter] *)
  stream : option nat;             (* file handlers: descriptor of the open file *)
  baseFilename : string;
  when : string;
  backupCount : Z;
  interval : Z;
  suffix : string;
  extMatch : list Re.atom;
  dayOfWeek : Z;
  rolloverAt : Z
}.

Record Logger := mk_logger {
  l_name : string;
  l_level : Z;
  handlers : list nat;             (* identities of the handler objects *)
  propagate : bool;
  disabled : bool
}.

Record LogRecord := mk_record {
  r_name : string;
  levelno : Z;
  r_msg : string
}.

(** A file: the chunks written to it, in order, and its modification time. *)
Record inode := mk_inode { chunks : list string; mtime : Z }.

(** Directory entries name inodes; an open descriptor keeps its inode
    whatever happens to the name ([os.rename], [os.remove]).  Paths are
    the strings the code builds; the model takes them normalised (no
    [.], [..], doubled or trailing slash), where [os.path.abspath] only
    prefixes the working directory, which stays fixed. *)
Record FS := mk_fs {
  dirs : gset string;
  names : gmap string nat;
  inodes : gmap nat inode;
  fds : gmap nat nat;
  disk_free : Z                    (* bytes left on the device *)
}.

Record World := mk_world {
  fs : FS;
  clock : Z;                       (* [int(time.time())] *)
  stdout : list string;
  stderr : list string;
  heap : gmap nat Handler;
  loggerDict : gmap string Logger;
  root : Logger
}.

Definition set_fs (f : FS) (w : World) : World :=
  mk_world f (clock w) (stdout w) (stderr w) (heap w) (loggerDict w) (root w).
Definition set_stdout (o : list string) (w : World) : World :=
  mk_world (fs w) (clock w) o (stderr w) (heap w) (loggerDict w) (root w).
Definition set_stderr (e : list string) (w : World) : World :=
  mk_world (fs w) (clock w) (stdout w) e (heap w) (loggerDict w) (root w).
Definition set_heap (h : gmap nat Handler) (w : World) : World :=
  mk_world (fs w) (clock w) (stdout w) (stderr w) h (loggerDict w) (root w).
Definition set_loggerDict (d : gmap string Logger) (w : World) : World :=
  mk_world (fs w) (clock w) (stdout w) (stderr w) (heap w) d (root w).
Definition set_root (r : Logger) (w : World) : World :=
  mk_world (fs w) (clock w) (stdout w) (stderr w) (heap w) (loggerDict w) r.
Definition set_clock (t : Z) (w : World) : World :=
  mk_world (fs w) t (stdout w) (stderr w) (heap w) (loggerDict w) (root w).

(** ** Exceptions and the monad of the embedding *)

Inductive exn :=
| ValueError (msg : string)
| OSError (msg : string).

(** A call returns, raises, or does not terminate. *)
Inductive result (A : Type) :=
| Ok (a : A) (w : World)
| Raise (e : exn) (w : World)
| Diverge.
Arguments Ok {A} a w.
Arguments Raise {A} e w.
Arguments Diverge {A}.

Definition M (A : Type) : Type := World -> result A.

Definition ret {A} (a : A) : M A := fun w => Ok a w.
Definition raise {A} (e : exn) : M A := fun w => Raise e w.
Definition bind {A B} (m : M A) (k : A -> M B) : M B :=
  fun w => match m w with
           | Ok a w' => k a w'
           | Raise e w' => Raise e w'
           | Diverge => Diverge
           end.
(** [try: m except Exception: h] *)
Definition try_except {A} (m : M A) (h : exn -> M A) : M A :=
  fun w => match m w with
           | Raise e w' => h e w'
           | r => r
           end.
Definition get : M World := fun w => Ok w w.
Definition modify (f : World -> World) : M unit := fun w => Ok tt (f w).

#[global] Instance M_ret : MRet M := @ret.
#[global] Instance M_bind : MBind M := fun A B k m => bind m k.

(** ** [os] and the built-in [open] *)

Module Os.

Definition set_names (n : gmap string nat) (f : FS) : FS :=
  mk_fs (dirs f) n (inodes f) (fds f) (disk_free f).

(** a directory the kernel can resolve: the working directory, the root
    or a directory that was made *)
Definition isdir_b (p : string) (f : FS) : bool :=
  String.eqb p "" || String.eqb p "/" || bool_decide (p ∈ dirs f).

Definition isfile (p : string) (w : World) : bool :=
  bool_decide (is_Some (names (fs w) !! p)).

(** [os.path.exists(p)]; the empty path does not exist *)
Definition exists_ (p : string) (w : World) : bool :=
  negb (String.eqb p "") && (isdir_b p (fs w) || isfile p w).

(** [os.mkdir(p)] *)
Definition mkdir (p : string) : M unit := fun w =>
  let f := fs w in
  if exists_ p w then Raise (OSError "FileExistsError") w
  else if String.eqb p "" || negb (isdir_b (Path.split p).1 f)
       then Raise (OSError "FileNotFoundError") w
  else Ok tt (set_fs (mk_fs ({[ p ]} ∪ dirs f) (names f) (inodes f) (fds f) (disk_free f)) w).

(** [os.makedirs(name, exist_ok=True)]: the missing ancestors first. *)
Fixpoint makedirs_rec (fuel : nat) (name : string) : M unit :=
  let '(head, tail) := Path.split name in
  let '(head, tail) := if String.eqb tail "" then Path.split head else (head, tail) in
  (w ← get;
   (if negb (String.eqb head "") && negb (String.eqb tail "") && negb (exists_ head w)
    then match fuel with
         | S fuel' => try_except (makedirs_rec fuel' head) (fun _ => ret tt)
         | O => ret tt
         end
    else ret tt) ;;
   try_except (mkdir name)
     (fun e => w' ← get;
               if isdir_b name (fs w') && negb (String.eqb name "")
               then ret tt else raise e)).

Definition makedirs (name : string) : M unit :=
  makedirs_rec (String.length name) name.

(** [open(p, 'a')]: the file is created when missing; the result is a
    fresh descriptor on its inode. *)
Definition open_append (p : string) : M nat := fun w =>
  let f := fs w in
  if String.eqb p "" then Raise (OSError "FileNotFoundError") w
  else if isdir_b p f then Raise (OSError "IsADirectoryError") w
  else if negb (isdir_b (Path.split p).1 f) then Raise (OSError "FileNotFoundError") w
  else
    let fd := fresh (dom (fds f)) in
    match names f !! p with
    | Some i =>
        Ok fd (set_fs (mk_fs (dirs f) (names f) (inodes f) (<[fd := i]> (fds f)) (disk_free f)) w)
    | None =>
        let i := fresh (dom (inodes f)) in
        Ok fd (set_fs (mk_fs (dirs f) (<[p := i]> (names f))
                             (<[i := mk_inode [] (clock w)]> (inodes f))
                             (<[fd := i]> (fds f)) (disk_free f)) w)
    end.

(** [stream.write(s); stream.flush()]: the bytes reach the file or the
    device reports that it is full. *)
Definition write (fd : nat) (s : string) : M unit := fun w =>
  let f := fs w in
  match fds f !! fd with
  | None => Raise (ValueError "I/O operation on closed file") w
  | Some i =>
      if disk_free f <? Z.of_nat (String.length s)
      then Raise (OSError "No space left on device") w
      else
        let old := default (mk_inode [] (clock w)) (inodes f !! i) in
        Ok tt (set_fs (mk_fs (dirs f) (names f)
                             (<[i := mk_inode (chunks old ++ [s]) (clock w)]> (inodes f))
                             (fds f)
                             (disk_free f - Z.of_nat (String.length s))) w)
  end.

(** [stream.close()] *)
Definition close (fd : nat) : M unit := fun w =>
  let f := fs w in
  Ok tt (set_fs (mk_fs (dirs f) (names f) (inodes f) (delete fd (fds f)) (disk_free f)) w).

(** [os.remove(p)] *)
Definition remove (p : string) : M unit := fun w =>
  let f := fs w in
  match names f !! p with
  | None => Raise (OSError "FileNotFoundError") w
  | Some _ => Ok tt (set_fs (set_names (delete p (names f)) f) w)
  end.

(** [os.rename(src, dst)] *)
Definition rename (src dst : string) : M unit := fun w =>
  let f := fs w in
  match names f !! src with
  | None => Raise (OSError "FileNotFoundError") w
  | Some i =>
      if bool_decide (dst ∈ dirs f) then Raise (OSError "IsADirectoryError") w
      else if negb (isdir_b (Path.split dst).1 f) then Raise (OSError "FileNotFoundError") w
      else Ok tt (set_fs (set_names (<[dst := i]> (delete src (names f))) f) w)
  end.

(** [os.listdir(d)]: the names of the files and directories in [d] *)
Definition entries (d : string) (f : FS) : list string :=
  let paths := (map fst (map_to_list (names f)) ++ elements (dirs f))%list in
  omap (fun p => let '(head, tail) := Path.split p in
                 if String.eqb head d && negb (String.eqb tail "") then Some tail else None)
       paths.

Definition listdir (d : string) : M (list string) := fun w =>
  if String.eqb d "" || negb (isdir_b d (fs w))
  then Raise (OSError "FileNotFoundError") w
  else Ok (entries d (fs w)) w.

(** [os.stat(p)[ST_MTIME]] of a regular file *)
Definition stat_mtime (p : string) : M Z := fun w =>
  match names (fs w) !! p with
  | Some i => Ok (mtime (default (mk_inode [] 0) (inodes (fs w) !! i))) w
  | None => Raise (OSError "FileNotFoundError") w
  end.

End Os.

(** ** What the embedding takes from the platform

    [time.localtime] depends on the zone database, and
    [logging.Formatter] on %-formatting of the record's attributes;
    neither is decided by the module, so both are parameters of the
    model.  [fmt_valid] is [PercentStyle.validate] (the constructor of
    [Formatter] raises [ValueError] on a format without a field),
    [fmt_format f r] is [Formatter(f).format(r)], [None] when formatting
    raises. *)
Record Env := mk_env {
  localtime : Z -> struct_time;
  fmt_valid : string -> bool;
  fmt_format : string -> LogRecord -> option string
}.

Definition NOTSET : Z := 0.
Definition DEBUG : Z := 10.
Definition INFO : Z := 20.
Definition WARNING : Z := 30.
Definition ERROR : Z := 40.
Definition CRITICAL : Z := 50.

Definition _MIDNIGHT : Z := 24 * 60 * 60.

Section Logging.

Context (env : Env).

(** *** Handler objects *)

Definition the_handler (h : nat) : M Handler := fun w =>
  match heap w !! h with
  | Some x => Ok x w
  | None => Raise (ValueError "no such handler") w
  end.

Definition store (h : nat) (x : Handler) : M unit :=
  modify (fun w => set_heap (<[h := x]> (heap w)) w).

Definition set_stream (s : option nat) (x : Handler) : Handler :=
  mk_handler (h_class x) (level x) (formatter x) s (baseFilename x) (when x)
    (backupCount x) (interval x) (suffix x) (extMatch x) (dayOfWeek x) (rolloverAt x).
Definition set_rolloverAt (t : Z) (x : Handler) : Handler :=
  mk_handler (h_class x) (level x) (formatter x) (stream x) (baseFilename x) (when x)
    (backupCount x) (interval x) (suffix x) (extMatch x) (dayOfWeek x) t.
Definition set_level (l : Z) (x : Handler) : Handler :=
  mk_handler (h_class x) l (formatter x) (stream x) (baseFilename x) (when x)
    (backupCount x) (interval x) (suffix x) (extMatch x) (dayOfWeek x) (rolloverAt x).
Definition set_formatter (f : option string) (x : Handler) : Handler :=
  mk_handler (h_class x) (level x) f (stream x) (baseFilename x) (when x)
    (backupCount x) (interval x) (suffix x) (extMatch x) (dayOfWeek x) (rolloverAt x).
Definition set_suffix (s : string) (x : Handler) : Handler :=
  mk_handler (h_class x) (level x) (formatter x) (stream x) (baseFilename x) (when x)
    (backupCount x) (interval x) s (extMatch x) (dayOfWeek x) (rolloverAt x).

(** [Handler.handleError]: with [logging.raiseExceptions] at its default
    the traceback goes to [sys.stderr]; nothing is raised. *)
Definition handleError (r : LogRecord) : M unit :=
  modify (fun w => set_stderr (stderr w ++ ["--- Logging error ---"]) w).

(** [Handler.format]: the handler's formatter, or the default
    [%(message)s]. *)
Definition format (x : Handler) (r : LogRecord) : M string :=
  match fmt_format env (default "%(message)s" (formatter x)) r with
  | Some s => ret s
  | None => raise (ValueError "format")
  end.

Definition terminator : string := String (ascii_of_nat 10) "".

(** [StreamHandler.emit] *)
Definition StreamHandler_emit (h : nat) (r : LogRecord) : M unit :=
  try_except
    (x ← the_handler h;
     msg ← format x r;
     match h_class x, stream x with
     | StreamHandler, _ =>
         modify (fun w => set_stderr (stderr w ++ [msg +:+ terminator]) w)
     | TimedRotatingFileHandler, Some fd => Os.write fd (msg +:+ terminator)
     | TimedRotatingFileHandler, None => raise (ValueError "no stream")
     end)
    (fun _ => handleError r).

(** [FileHandler._open] *)
Definition _open (x : Handler) : M nat := Os.open_append (baseFilename x).

(** [FileHandler.emit] *)
Definition FileHandler_emit (h : nat) (r : LogRecord) : M unit :=
  x ← the_handler h;
  match stream x with
  | None => fd ← _open x; store h (set_stream (Some fd) x)
  | Some _ => ret tt
  end ;;
  x ← the_handler h;
  match stream x with
  | Some _ => StreamHandler_emit h r
  | None => ret tt
  end.

(** [TimedRotatingFileHandler.computeRollover] ([utc] is false and
    [atTime] is [None]: the module passes neither). *)
Definition computeRollover (x : Handler) (currentTime : Z) : Z :=
  let result := currentTime + interval x in
  if String.eqb (when x) "MIDNIGHT" || Str.startswith "W" (when x) then
    let t := localtime env currentTime in
    let currentHour := tm_hour t in
    let currentMinute := tm_min t in
    let currentSecond := tm_sec t in
    let currentDay := tm_wday t in
    let rotate_ts := _MIDNIGHT in
    let r := rotate_ts - ((currentHour * 60 + currentMinute) * 60 + currentSecond) in
    let '(r, currentDay) :=
      if r <? 0 then (r + _MIDNIGHT, (currentDay + 1) mod 7) else (r, currentDay) in
    let result := currentTime + r in
    if Str.startswith "W" (when x) then
      let day := currentDay in
      if negb (day =? dayOfWeek x) then
        let daysToWait :=
          if day <? dayOfWeek x then dayOfWeek x - day
          else 6 - day + dayOfWeek x + 1 in
        let newRolloverAt := result + (daysToWait * (60 * 60 * 24)) in
        let dstNow := tm_isdst t in
        let dstAtRollover := tm_isdst (localtime env newRolloverAt) in
        if negb (dstNow =? dstAtRollover) then
          let addend := if dstNow =? 0 then -3600 else 3600 in
          newRolloverAt + addend
        else newRolloverAt
      else result
    else result
  else result.

(** [TimedRotatingFileHandler.shouldRollover] *)
Definition shouldRollover (h : nat) (r : LogRecord) : M bool :=
  x ← the_handler h;
  w ← get;
  let t := clock w in
  if t >=? rolloverAt x then
    if Os.exists_ (baseFilename x) w && negb (Os.isfile (baseFilename x) w) then
      store h (set_rolloverAt (computeRollover x t) x) ;; ret false
    else ret true
  else ret false.

(** [TimedRotatingFileHandler.getFilesToDelete] ([namer] is [None]) *)
Definition is_rotated (x : Handler) (baseName prefix fileName : string) : bool :=
  Str.startswith baseName fileName
  && String.eqb (Str.take (String.length prefix) fileName) prefix
  && existsb (Re.match_ (extMatch x))
       (Str.split "." (Str.drop (String.length prefix) fileName)).

Definition getFilesToDelete (x : Handler) : M (list string) :=
  let '(dirName, baseName) := Path.split (baseFilename x) in
  fileNames ← Os.listdir dirName;
  let '(n, e) := Path.splitext baseName in
  let prefix := n +:+ "." in
  let result :=
    map (Path.join dirName) (filter (fun f => is_rotated x baseName prefix f = true) fileNames) in
  if Z.of_nat (length result) <? backupCount x then ret []
  else
    ret (take (length result - Z.to_nat (backupCount x)) (Str.sort result)).

(** [BaseRotatingHandler.rotate] ([rotator] is [None]) *)
Definition rotate (source dest : string) : M unit :=
  w ← get;
  if Os.exists_ source w then Os.rename source dest else ret tt.

(** [while newRolloverAt <= currentTime: newRolloverAt += interval] *)
Fixpoint catch_up (fuel : nat) (newRolloverAt currentTime interval : Z) : option Z :=
  if newRolloverAt <=? currentTime then
    match fuel with
    | O => None
    | S fuel' => catch_up fuel' (newRolloverAt + interval) currentTime interval
    end
  else Some newRolloverAt.

(** The loop stops after at most [currentTime - newRolloverAt + 1]
    rounds when the interval is positive and never otherwise (see
    [catch_up_terminates] and [catch_up_diverges]). *)
Definition catch_up_loop (newRolloverAt currentTime interval : Z) : M Z :=
  match catch_up (Z.to_nat (currentTime - newRolloverAt + 1))
                 newRolloverAt currentTime interval with
  | Some t => ret t
  | None => fun _ => Diverge
  end.

(** [for s in l: os.remove(s)] *)
Fixpoint remove_all (l : list string) : M unit :=
  match l with
  | [] => ret tt
  | s :: l' => Os.remove s ;; remove_all l'
  end.

(** the name the active file is rotated to *)
Definition rotation_filename (default_name : string) : string := default_name.

(** [doRollover], first part: the time tuple of the start of the
    interval that ends ([t = rolloverAt - interval], moved by an hour
    when the DST flag changed since) and the name [dfn] built from it. *)
Definition timeTuple_of (x : Handler) (currentTime : Z) : struct_time :=
  let dstNow := tm_isdst (localtime env currentTime) in
  let t := rolloverAt x - interval x in
  let timeTuple := localtime env t in
  let dstThen := tm_isdst timeTuple in
  if negb (dstNow =? dstThen) then
    let addend := if negb (dstNow =? 0) then 3600 else -3600 in
    localtime env (t + addend)
  else timeTuple.

Definition dfn_of (x : Handler) (timeTuple : struct_time) : string :=
  rotation_filename (baseFilename x +:+ "." +:+ Time.strftime (suffix x) timeTuple).

(** [doRollover], last part: the DST correction of the new deadline *)
Definition dst_adjusted (x : Handler) (currentTime newRolloverAt : Z) : Z :=
  let dstNow := tm_isdst (localtime env currentTime) in
  if String.eqb (when x) "MIDNIGHT" || Str.startswith "W" (when x) then
    let dstAtRollover := tm_isdst (localtime env newRolloverAt) in
    if negb (dstNow =? dstAtRollover) then
      let addend := if dstNow =? 0 then -3600 else 3600 in
      newRolloverAt + addend
    else newRolloverAt
  else newRolloverAt.

(** [TimedRotatingFileHandler.doRollover] *)
Definition doRollover (h : nat) : M unit :=
  x ← the_handler h;
  match stream x with
  | Some fd => Os.close fd ;; store h (set_stream None x)
  | None => ret tt
  end ;;
  x ← the_handler h;
  w ← get;
  let currentTime := clock w in
  let dfn := dfn_of x (timeTuple_of x currentTime) in
  (if Os.exists_ dfn w then Os.remove dfn else ret tt) ;;
  rotate (baseFilename x) dfn ;;
  (if backupCount x >? 0 then l ← getFilesToDelete x; remove_all l else ret tt) ;;
  fd ← _open x;
  store h (set_stream (Some fd) x) ;;
  x ← the_handler h;
  newRolloverAt ← catch_up_loop (computeRollover x currentTime) currentTime (interval x);
  store h (set_rolloverAt (dst_adjusted x currentTime newRolloverAt) x).

(** [BaseRotatingHandler.emit] *)
Definition BaseRotatingHandler_emit (h : nat) (r : LogRecord) : M unit :=
  try_except
    (b ← shouldRollover h r;
     (if b : bool then doRollover h else ret tt) ;;
     FileHandler_emit h r)
    (fun _ => handleError r).

(** [Handler.handle]: no filter is installed, the record is emitted by
    the method of the handler's class. *)
Definition Handler_handle (h : nat) (r : LogRecord) : M unit :=
  x ← the_handler h;
  match h_class x with
  | TimedRotatingFileHandler => BaseRotatingHandler_emit h r
  | StreamHandler => StreamHandler_emit h r
  end.

(** [TimedRotatingFileHandler.__init__]: the table of [when] values.
    The result is the base interval in seconds, the suffix, the pattern
    of [extMatch] and the weekday. *)
Definition date_atoms : list Re.atom :=
  (Re.d 4 ++ Re.lit "-" ++ Re.d 2 ++ Re.lit "-" ++ Re.d 2)%list.

Definition when_table (wh : string) : exn + (Z * string * list Re.atom * Z) :=
  if String.eqb wh "S" then
    inr (1, "%Y-%m-%d_%H-%M-%S",
         (date_atoms ++ Re.lit "_" ++ Re.d 2 ++ Re.lit "-" ++ Re.d 2 ++ Re.lit "-" ++ Re.d 2)%list, 0)
  else if String.eqb wh "M" then
    inr (60, "%Y-%m-%d_%H-%M", (date_atoms ++ Re.lit "_" ++ Re.d 2 ++ Re.lit "-" ++ Re.d 2)%list, 0)
  else if String.eqb wh "H" then
    inr (60 * 60, "%Y-%m-%d_%H", (date_atoms ++ Re.lit "_" ++ Re.d 2)%list, 0)
  else if String.eqb wh "D" || String.eqb wh "MIDNIGHT" then
    inr (60 * 60 * 24, "%Y-%m-%d", date_atoms, 0)
  else if Str.startswith "W" wh then
    if negb (String.length wh =? 2)%nat then
      inl (ValueError "You must specify a day for weekly rollover from 0 to 6 (0 is Monday)")
    else
      match String.get 1 wh with
      | Some c =>
          if (nat_of_ascii c <? 48)%nat || (54 <? nat_of_ascii c)%nat then
            inl (ValueError "Invalid day specified for weekly rollover")
          else inr (60 * 60 * 24 * 7, "%Y-%m-%d", date_atoms, Z.of_nat (nat_of_ascii c - 48))
      | None => inl (ValueError "Invalid day specified for weekly rollover")
      end
  else inl (ValueError "Invalid rollover interval specified").

(** [TimedRotatingFileHandler(filename, when, interval, backupCount)]:
    the file is opened first ([FileHandler.__init__], [delay] is false),
    then [when] is checked.  The result is the identity of the new
    handler. *)
Definition TimedRotatingFileHandler_init
    (filename wh : string) (intv bc : Z) : M nat :=
  fd ← Os.open_append filename;
  let WHEN := Str.upper wh in
  match when_table WHEN with
  | inl e => raise e
  | inr (base, sfx, pat, dow) =>
      w ← get;
      t ← (if Os.exists_ filename w then Os.stat_mtime filename else ret (clock w));
      let x := mk_handler TimedRotatingFileHandler NOTSET None (Some fd) filename WHEN
                 bc (base * intv) sfx pat dow 0 in
      let h := fresh (dom (heap w)) in
      store h (set_rolloverAt (computeRollover x t) x) ;;
      ret h
  end.

(** [logging.StreamHandler()]: a handler on [sys.stderr] *)
Definition StreamHandler_init : M nat :=
  w ← get;
  let h := fresh (dom (heap w)) in
  store h (mk_handler StreamHandler NOTSET None None "" "" 0 0 "" [] 0 0) ;;
  ret h.

Definition Handler_setLevel (h : nat) (l : Z) : M unit :=
  x ← the_handler h; store h (set_level l x).
Definition Handler_setFormatter (h : nat) (f : string) : M unit :=
  x ← the_handler h; store h (set_formatter (Some f) x).

(** *** Loggers

    A logger is referred to by its name; [None] refers to the root
    logger.  [Manager.getLogger] links a new logger to the nearest
    ancestor among the dotted prefixes of its name ([_fixupParents]) and
    relinks the loggers below it ([_fixupChildren]); [parent] reads that
    link off the dictionary with the loop of [_fixupParents]. *)
Definition new_logger (name : string) : Logger := mk_logger name NOTSET [] true false.

Definition the_logger (c : option string) (w : World) : Logger :=
  match c with
  | None => root w
  | Some n => default (new_logger n) (loggerDict w !! n)
  end.

Definition put_logger (c : option string) (l : Logger) (w : World) : World :=
  match c with
  | None => set_root l w
  | Some n => set_loggerDict (<[n := l]> (loggerDict w)) w
  end.

(** [logging.getLogger(name)] *)
Definition getLogger (name : string) : M (option string) :=
  if String.eqb name "" || String.eqb name "root" then ret None
  else
    w ← get;
    match loggerDict w !! name with
    | Some _ => ret (Some name)
    | None => modify (put_logger (Some name) (new_logger name)) ;; ret (Some name)
    end.

Fixpoint _fixupParents (fuel : nat) (name : string) (i : option nat)
    (d : gmap string Logger) : option string :=
  match i with
  | Some (S k) =>
      let substr := Str.take (S k) name in
      if bool_decide (is_Some (d !! substr)) then Some substr
      else match fuel with
           | S fuel' => _fixupParents fuel' name (Str.rfind "." (Str.take k name)) d
           | O => None
           end
  | _ => None
  end.

Definition parent (name : string) (w : World) : option string :=
  _fixupParents (String.length name) name (Str.rfind "." name) (loggerDict w).

(** the logger, its parent, ... up to the root *)
Fixpoint lineage (fuel : nat) (c : option string) (w : World) : list (option string) :=
  match c with
  | None => [None]
  | Some n =>
      c :: match fuel with
           | S fuel' => lineage fuel' (parent n w) w
           | O => [None]
           end
  end.

Definition ancestry (c : option string) (w : World) : list (option string) :=
  lineage (match c with Some n => String.length n | None => O end) c w.

(** [Logger.setLevel] *)
Definition Logger_setLevel (c : option string) (l : Z) : M unit :=
  modify (fun w =>
    let lg := the_logger c w in
    put_logger c (mk_logger (l_name lg) l (handlers lg) (propagate lg) (disabled lg)) w).

Definition set_handlers (c : option string) (hs : list nat) : M unit :=
  modify (fun w =>
    let lg := the_logger c w in
    put_logger c (mk_logger (l_name lg) (l_level lg) hs (propagate lg) (disabled lg)) w).

(** [Logger.addHandler] *)
Definition addHandler (c : option string) (h : nat) : M unit :=
  w ← get;
  let lg := the_logger c w in
  if bool_decide (h ∈ handlers lg) then ret tt
  else set_handlers c (handlers lg ++ [h]).

(** [Logger.getEffectiveLevel] *)
Fixpoint first_level (cs : list (option string)) (w : World) : Z :=
  match cs with
  | [] => NOTSET
  | c :: cs' =>
      if l_level (the_logger c w) =? 0 then first_level cs' w
      else l_level (the_logger c w)
  end.

Definition getEffectiveLevel (c : option string) (w : World) : Z :=
  first_level (ancestry c w) w.

(** [Manager.disable]: the module never calls [logging.disable] *)
Definition manager_disable : Z := 0.

(** [Logger.isEnabledFor] *)
Definition isEnabledFor (c : option string) (lvl : Z) (w : World) : bool :=
  if disabled (the_logger c w) then false
  else if manager_disable >=? lvl then false
  else lvl >=? getEffectiveLevel c w.

(** [for hdlr in c.handlers: if record.levelno >= hdlr.level: hdlr.handle(record)] *)
Fixpoint call_all (hs : list nat) (r : LogRecord) : M unit :=
  match hs with
  | [] => ret tt
  | h :: hs' =>
      (x ← the_handler h;
       if levelno r >=? level x then Handler_handle h r else ret tt) ;;
      call_all hs' r
  end.

Fixpoint callHandlers_loop (cs : list (option string)) (r : LogRecord) (found : nat) : M nat :=
  match cs with
  | [] => ret found
  | c :: cs' =>
      w ← get;
      let lg := the_logger c w in
      call_all (handlers lg) r ;;
      let found' := (found + length (handlers lg))%nat in
      if propagate lg then callHandlers_loop cs' r found' else ret found'
  end.

(** [logging.lastResort]: a [StreamHandler] on [sys.stderr] at level
    [WARNING] with the default formatter *)
Definition lastResort_handle (r : LogRecord) : M unit :=
  try_except
    (match fmt_format env "%(message)s" r with
     | Some msg => modify (fun w => set_stderr (stderr w ++ [msg +:+ terminator]) w)
     | None => raise (ValueError "format")
     end)
    (fun _ => handleError r).

(** [Logger.callHandlers] *)
Definition callHandlers (c : option string) (r : LogRecord) : M unit :=
  w ← get;
  found ← callHandlers_loop (ancestry c w) r 0;
  if (found =? 0)%nat then
    if levelno r >=? WARNING then lastResort_handle r else ret tt
  else ret tt.

(** [Logger.log(level, msg)]; [logger.info(msg)] is [log INFO msg]. *)
Definition log (c : option string) (lvl : Z) (msg : string) : M unit :=
  w ← get;
  if isEnabledFor c lvl w then
    let lg := the_logger c w in
    let record := mk_record (l_name lg) lvl msg in
    if negb (disabled lg) then callHandlers c record else ret tt
  else ret tt.

(** *** The module *)

Definition default_format : string :=
  "%(asctime)s - %(name)s - %(levelname)s - %(funcName)s:%(lineno)d - %(message)s".

(** [logging.Formatter(fmt, datefmt=...)] *)
Definition Formatter (fmt : string) : M string :=
  if fmt_valid env fmt then ret fmt else raise (ValueError "Invalid format").

(** [create_rotating_logger] *)
Definition create_rotating_logger
    (name log_file log_dir : string) (lvl : Z) (wh : string) (intv backup_count : Z)
    (console_output : bool) (custom_format : option string) : M (option string) :=
  logger ← getLogger name;
  Logger_setLevel logger lvl ;;
  w ← get;
  (if bool_decide (handlers (the_logger logger w) ≠ []) then set_handlers logger [] else ret tt) ;;
  w ← get;
  (if negb (Os.exists_ log_dir w) then
     Os.makedirs log_dir ;;
     modify (fun w => set_stdout (stdout w ++ ["Log directory created: " +:+ log_dir]) w)
   else ret tt) ;;
  let log_path := Path.join log_dir log_file in
  let log_format := match custom_format with None => default_format | Some f => f end in
  formatter ← Formatter log_format;
  file_handler ← TimedRotatingFileHandler_init log_path wh intv backup_count;
  Handler_setLevel file_handler lvl ;;
  Handler_setFormatter file_handler formatter ;;
  (x ← the_handler file_handler; store file_handler (set_suffix "%Y-%m-%d_%H-%M-%S" x)) ;;
  addHandler logger file_handler ;;
  (if console_output then
     console_handler ← StreamHandler_init;
     Handler_setLevel console_handler lvl ;;
     Handler_setFormatter console_handler formatter ;;
     addHandler logger console_handler
   else ret tt) ;;
  ret logger.

(** [get_existing_logger] *)
Definition get_existing_logger (name : string) : M (option string) :=
  getLogger name.

End Logging.

(** ** A concrete platform: a process in the UTC zone *)

Definition utc_env : Env :=
  mk_env Time.gmtime
         (fun f => Str.startswith "%(" f || negb (String.eqb f ""))
         (fun f r => Some (r_name r +:+ ": " +:+ r_msg r)).

Definition world0 : World :=
  mk_world (mk_fs ∅ ∅ ∅ ∅ 1000000) 0 [] [] ∅ ∅
           (mk_logger "root" WARNING [] true false).

(** The state a call leaves behind, whether it returned or raised. *)
Definition exec {A} (m : M A) (w : World) : option World :=
  match m w with
  | Ok _ w' => Some w'
  | Raise _ w' => Some w'
  | Diverge => None
  end.

(** the paths of the regular files, sorted *)
Definition files (w : World) : list string :=
  Str.sort (map fst (map_to_list (names (fs w)))).

(** what was written to the file at [p] *)
Definition content (p : string) (w : World) : option (list string) :=
  i ← names (fs w) !! p;
  x ← inodes (fs w) !! i;
  Some (chunks x).

(** the reference [logging.getLogger(name)] returns *)
Definition ref_of (name : string) : option string :=
  if String.eqb name "" || String.eqb name "root" then None else Some name.

(** the logger of a reference is in the registry *)
Definition registered (c : option string) (w : World) : Prop :=
  match c with
  | None => True
  | Some n => is_Some (loggerDict w !! n)
  end.

(** one record of level [lvl] logged at each of the times [ts] *)
Fixpoint session (env : Env) (c : option string) (lvl : Z) (ts : list Z) : M unit :=
  match ts with
  | [] => ret tt
  | t :: ts' =>
      modify (set_clock t) ;; log env c lvl "tick" ;; session env c lvl ts'
  end.


(** the device is full *)
Definition fill_disk (w : World) : World :=
  set_fs (mk_fs (dirs (fs w)) (names (fs w)) (inodes (fs w)) (fds (fs w)) 0) w.

Definition returned {A} (r : result A) : bool :=
  match r with Ok _ _ => true | _ => false end.

(** ** Wall-clock order and the fixed-width stamp *)

(** the ranges of the fields of a [struct_time] that [time.localtime]
    returns, for a four-digit year *)
Definition tm_valid (t : struct_time) : Prop :=
  1000 <= tm_year t <= 9999 ∧ 1 <= tm_mon t <= 12 ∧ 1 <= tm_mday t <= 31 ∧
  0 <= tm_hour t <= 23 ∧ 0 <= tm_min t <= 59 ∧ 0 <= tm_sec t <= 61.





(** The specification's [YYYY-MM-DD_HH-MM-SS], written out digit by
    digit: two and four zero-padded digits in front of [rest]. *)
Definition two (n : Z) (rest : string) : string :=
  String (Time.digit (n / 10)) (String (Time.digit n) rest).

Definition four (n : Z) (rest : string) : string :=
  two (n / 100) (two (n mod 100) rest).

Definition fixed_width_stamp (t : struct_time) : string :=
  four (tm_year t) (String "-" (two (tm_mon t) (String "-" (two (tm_mday t)
    (String "_" (two (tm_hour t) (String "-" (two (tm_min t)
      (String "-" (two (tm_sec t) "")))))))))).

(** ** Scenarios *)

Definition T0 : Z := 1752580000.           (* 2025-07-15 11:46:40 UTC *)
Definition day : Z := 86400.

(** the defaults of the module, with one backup kept *)
Definition daily_keep_one : M unit :=
  create_rotating_logger utc_env "t" "a.log" "logs" INFO "midnight" 1 1 true None ;;
  session utc_env (Some "t") INFO [T0 + day; T0 + 2 * day].

(** rotation every second, one backup kept *)
Definition secondly_keep_one : M unit :=
  create_rotating_logger utc_env "t" "a.log" "logs" INFO "S" 1 1 true None ;;
  session utc_env (Some "t") INFO [T0 + 1; T0 + 2].

(** a configured sink whose device is full *)
Definition full_disk_world : World :=
  fill_disk (default world0
    (exec (create_rotating_logger utc_env "t" "a.log" "logs" INFO "midnight" 1 7 false None)
          (set_clock T0 world0))).

(** a sink that keeps every archive *)
Definition unlimited_world : World :=
  default world0
    (exec (create_rotating_logger utc_env "t" "a.log" "logs" INFO "S" 1 0 false None)
          (set_clock T0 world0)).

(** a name configured twice *)
Definition configured_once : World :=
  default world0
    (exec (create_rotating_logger utc_env "t" "a.log" "logs" INFO "midnight" 1 7 true None)
          (set_clock T0 world0)).



(** the unlimited sink with one record in the active file *)
Definition written_world : World :=
  default world0 (exec (log utc_env (Some "t") INFO "hello") unlimited_world).

(** a second later, when the rotation is due *)
Definition due_world : World := set_clock (T0 + 1) written_world.

(** and after that rotation *)
Definition rotated_world : World :=
  default world0 (exec (doRollover utc_env 0%nat) due_world).

(** a sink with the interval [-1] *)
Definition negative_interval_world : World :=
  default world0
    (exec (create_rotating_logger utc_env "t" "a.log" "logs" INFO "S" (-1) 0 false None)
          (set_clock T0 world0)).

(** a second configuration of the name that fails *)
Definition failed_reconfiguration : World :=
  default world0
    (exec (create_rotating_logger utc_env "t" "b.log" "logs" DEBUG "fortnightly" 1 3 false None)
          configured_once).

(** a handler of the policy [midnight] with the interval [intv] *)
Definition midnight_handler (intv : Z) : Handler :=
  mk_handler TimedRotatingFileHandler INFO None None "logs/a.log" "MIDNIGHT" 7 intv
             "%Y-%m-%d_%H-%M-%S" date_atoms 0 0.

(** ** Notions used by the proofs *)

Definition fs_dirs (ds : gset string) (w : World) : World :=
  set_fs (mk_fs ds (names (fs w)) (inodes (fs w)) (fds (fs w)) (disk_free (fs w))) w.

(** a call that returns or raises and touches the directories only *)
Definition dirs_only {A} (m : M A) : Prop :=
  ∀ w, match m w with
       | Ok _ w' | Raise _ w' => ∃ ds, w' = fs_dirs ds w
       | Diverge => False
       end.


(** a call that touches the file system only *)
Definition fs_only {A} (m : M A) : Prop :=
  ∀ w, match m w with
       | Ok _ w' | Raise _ w' => ∃ f, w' = set_fs f w
       | Diverge => True
       end.

(** the time [TimedRotatingFileHandler.__init__] starts from: the
    modification time of the file at [path], the current time when there
    is no such file *)
Definition start_time (path : string) (w : World) : option Z :=
  match names (fs w) !! path with
  | Some i => mtime <$> inodes (fs w) !! i
  | None => Some (clock w)
  end.



(** the part of the state a handler's methods leave alone: which
    handlers there are, and the loggers *)
Definition same_registry (w w' : World) : Prop :=
  dom (heap w') = dom (heap w) ∧ loggerDict w' = loggerDict w ∧ root w' = root w.

(** a method of the live handler [h] that keeps that part *)
Definition keeps {A} (h : nat) (m : M A) : Prop :=
  ∀ w, h ∈ dom (heap w) →
       match m w with
       | Ok _ w' | Raise _ w' => same_registry w w'
       | Diverge => True
       end.

(** a call that returns or does not end, and never raises *)
Definition never_raises {A} (m : M A) (w : World) : Prop :=
  match m w with Raise _ _ => False | _ => True end.

(** what [call_all], [callHandlers_loop] and [log] do to the state *)
Definition quiet {A} (m : M A) (w : World) : Prop :=
  match m w with
  | Ok _ w' => same_registry w w'
  | Raise _ _ => False
  | Diverge => True
  end.

(** * Properties *)


Lemma bind_Ok {A B} (m : M A) (k : A → M B) w b w' :
  (m ≫= k) w = Ok b w' → ∃ a w1, m w = Ok a w1 ∧ k a w1 = Ok b w'.
Proof.
  unfold mbind, M_bind, bind. destruct (m w) as [a w1| |]; [eauto|done..].
Qed.

Lemma the_logger_put c l w : the_logger c (put_logger c l w) = l.
Proof. destruct c; simpl; [by rewrite lookup_insert_eq|done]. Qed.

(** C7.  A record whose level is strictly below the level configured on
    the logger is dropped by [Logger.log] before any handler is reached:
    the call returns and the whole state (active file, archives, console
    streams, the handlers and their rotation deadlines) is unchanged. *)
Theorem below_level_is_noop env c lvl lv msg w :
  l_level (the_logger c w) = lvl → lv < lvl → log env c lv msg w = Ok tt w.
Proof.
  intros Hl Hlt. unfold log, mbind, M_bind, bind, get, isEnabledFor; simpl.
  destruct (disabled (the_logger c w)); [reflexivity|].
  unfold manager_disable.
  destruct (0 >=? lv) eqn:E0; [reflexivity|].
  assert (getEffectiveLevel c w = lvl) as ->.
  { unfold getEffectiveLevel, ancestry.
    assert (lvl ≠ 0) by lia.
    destruct c as [n|]; [destruct (String.length n)|];
      cbn [lineage first_level]; rewrite Hl;
      destruct (lvl =? 0) eqn:E; (lia || reflexivity). }
  destruct (lv >=? lvl) eqn:E; [lia|reflexivity].
Qed.

Lemma fs_dirs_id w : w = fs_dirs (dirs (fs w)) w.
Proof. by destruct w as [[] ? ? ? ? ? ?]. Qed.

Lemma fs_dirs_fs_dirs ds ds' w : fs_dirs ds (fs_dirs ds' w) = fs_dirs ds w.
Proof. done. Qed.

Lemma dirs_only_ret {A} (a : A) : dirs_only (ret a).
Proof. intros w. exists (dirs (fs w)). apply fs_dirs_id. Qed.

Lemma dirs_only_raise {A} e : dirs_only (@raise A e).
Proof. intros w. exists (dirs (fs w)). apply fs_dirs_id. Qed.

Lemma dirs_only_get : dirs_only get.
Proof. intros w. exists (dirs (fs w)). apply fs_dirs_id. Qed.

Lemma dirs_only_bind {A B} (m : M A) (k : A → M B) :
  dirs_only m → (∀ a, dirs_only (k a)) → dirs_only (m ≫= k).
Proof.
  intros Hm Hk w. unfold mbind, M_bind, bind. specialize (Hm w).
  destruct (m w) as [a w1|e w1|]; [|done..].
  destruct Hm as [ds ->]. specialize (Hk a (fs_dirs ds w)).
  destruct (k a (fs_dirs ds w)) as [b w2|e w2|]; [| |done];
    destruct Hk as [ds' ->]; by exists ds'.
Qed.

Lemma dirs_only_try {A} (m : M A) (h : exn → M A) :
  dirs_only m → (∀ e, dirs_only (h e)) → dirs_only (try_except m h).
Proof.
  intros Hm Hh w. unfold try_except. specialize (Hm w).
  destruct (m w) as [a w1|e w1|]; [done| |done].
  destruct Hm as [ds ->]. specialize (Hh e (fs_dirs ds w)).
  destruct (h e (fs_dirs ds w)) as [b w2|e' w2|]; [| |done];
    destruct Hh as [ds' ->]; by exists ds'.
Qed.

Lemma dirs_only_mkdir p : dirs_only (Os.mkdir p).
Proof.
  intros w. unfold Os.mkdir.
  destruct (Os.exists_ p w); [exists (dirs (fs w)); apply fs_dirs_id|].
  destruct (_ || _); [exists (dirs (fs w)); apply fs_dirs_id|by eexists].
Qed.

Lemma dirs_only_makedirs_rec fuel name : dirs_only (Os.makedirs_rec fuel name).
Proof.
  revert name. induction fuel as [|fuel IH]; intros name; simpl;
    repeat case_match; subst.
  all: apply dirs_only_bind; [apply dirs_only_get|intros w0].
  all: apply dirs_only_bind;
    [repeat case_match; try apply dirs_only_ret;
     try (apply dirs_only_try; [apply IH|intros; apply dirs_only_ret])
    |intros _; apply dirs_only_try; [apply dirs_only_mkdir|intros e]].
  all: apply dirs_only_bind; [apply dirs_only_get|intros w1];
    case_match; [apply dirs_only_ret|apply dirs_only_raise].
Qed.

Lemma dirs_only_makedirs name : dirs_only (Os.makedirs name).
Proof. apply dirs_only_makedirs_rec. Qed.

Lemma getLogger_Ok name w c w1 :
  getLogger name w = Ok c w1 →
  c = ref_of name ∧ registered c w1 ∧ heap w1 = heap w ∧ fs w1 = fs w.
Proof.
  unfold getLogger, ref_of, mbind, M_bind, bind, get, modify, ret.
  destruct (_ || _); [intros [= <- <-]; done|].
  destruct (loggerDict w !! name) eqn:E; simpl; intros [= <- <-]; simpl.
  - by rewrite E.
  - by rewrite lookup_insert_eq.
Qed.

Lemma registered_put c l w : registered c (put_logger c l w).
Proof. destruct c; simpl; [by rewrite lookup_insert_eq|done]. Qed.


Lemma fresh_heap_None (m : gmap nat Handler) : m !! fresh (dom m) = None.
Proof. apply not_elem_of_dom, is_fresh. Qed.

Lemma open_append_Ok p w fd w1 :
  Os.open_append p w = Ok fd w1 →
  ∃ f', w1 = set_fs f' w ∧ is_Some (fds f' !! fd) ∧
        (∀ fd0 i0, fds (fs w) !! fd0 = Some i0 → fds f' !! fd0 = Some i0).
Proof.
  unfold Os.open_append. intros H.
  repeat (case_match; try done); injection H as <- <-; eexists; split; try done; simpl.
  all: split; [by rewrite lookup_insert_eq|].
  all: intros fd0 i0 Hfd0; rewrite lookup_insert_ne; [done|].
  all: intros <-; by rewrite (not_elem_of_dom_1 _ _ (is_fresh (dom (fds (fs w))))) in Hfd0.
Qed.

Lemma stat_mtime_Ok p w t w1 : Os.stat_mtime p w = Ok t w1 → w1 = w.
Proof. unfold Os.stat_mtime. case_match; [by intros [= _ <-]|done]. Qed.

Lemma TimedRotatingFileHandler_init_Ok env filename wh intv bc w h w1 :
  TimedRotatingFileHandler_init env filename wh intv bc w = Ok h w1 →
  ∃ f' x fd,
    h = fresh (dom (heap w)) ∧
    w1 = set_heap (<[h := x]> (heap w)) (set_fs f' w) ∧
    h_class x = TimedRotatingFileHandler ∧ baseFilename x = filename ∧
    backupCount x = bc ∧ stream x = Some fd ∧ is_Some (fds f' !! fd) ∧
    (∃ base sfx pat dow, when_table (Str.upper wh) = inr (base, sfx, pat, dow) ∧
       interval x = base * intv ∧ extMatch x = pat ∧ when x = Str.upper wh) ∧
    (∀ fd0 i0, fds (fs w) !! fd0 = Some i0 → fds f' !! fd0 = Some i0).
Proof.
  unfold TimedRotatingFileHandler_init. intros H.
  apply bind_Ok in H as (fd & w0 & Hopen & H).
  apply open_append_Ok in Hopen as (f' & -> & Hfd & Hold).
  destruct (when_table (Str.upper wh)) as [e|[[[base sfx] pat] dow]] eqn:Hw; [done|].
  apply bind_Ok in H as (w0 & w0' & Hg & H). injection Hg as <- <-.
  apply bind_Ok in H as (t & w0 & Ht & H).
  assert (w0 = set_fs f' w) as ->.
  { destruct (Os.exists_ filename (set_fs f' w)); [by apply stat_mtime_Ok in Ht|by injection Ht]. }
  apply bind_Ok in H as ([] & w0 & Hs & H). injection Hs as <-.
  injection H as <- <-. simpl.
  eexists f', _, fd. split; [done|]. split; [done|]. simpl.
  repeat split; try done. by eexists _, _, _, _.
Qed.

Lemma the_logger_frame c w w' :
  loggerDict w' = loggerDict w → root w' = root w → the_logger c w' = the_logger c w.
Proof. intros Hd Hr. destruct c; simpl; rewrite ?Hd, ?Hr; done. Qed.

Lemma registered_frame c w w' :
  loggerDict w' = loggerDict w → registered c w → registered c w'.
Proof. intros Hd. destruct c; simpl; rewrite ?Hd; done. Qed.

Lemma put_logger_put c l l' w : put_logger c l (put_logger c l' w) = put_logger c l w.
Proof. destruct c; simpl; [|done]. unfold set_loggerDict; simpl. by rewrite insert_insert_eq. Qed.

Lemma heap_put_logger c l w : heap (put_logger c l w) = heap w.
Proof. by destruct c. Qed.

Lemma fs_put_logger c l w : fs (put_logger c l w) = fs w.
Proof. by destruct c. Qed.

Lemma ensure_dir_Ok log_dir w w1 :
  (if negb (Os.exists_ log_dir w)
   then Os.makedirs log_dir ≫= λ _ : (),
        modify (λ w0, set_stdout (stdout w0 ++ ["Log directory created: " +:+ log_dir]) w0)
   else ret ()) w = Ok () w1 →
  ∃ ds out, w1 = set_stdout out (fs_dirs ds w).
Proof.
  destruct (negb _).
  - intros H. apply bind_Ok in H as ([] & w0 & Hm & H).
    pose proof (dirs_only_makedirs log_dir w) as Hd. rewrite Hm in Hd.
    destruct Hd as [ds ->]. injection H as <-. by eexists _, _.
  - intros [= <-]. exists (dirs (fs w)), (stdout w). by destruct w as [[] ? ? ? ? ? ?].
Qed.


Lemma bind_step {A B} (m : M A) (k : A → M B) w a w1 :
  m w = Ok a w1 → (m ≫= k) w = k a w1.
Proof. unfold mbind, M_bind, bind. by intros ->. Qed.

Lemma update_handler_Ok h (f : Handler → Handler) w x :
  heap w !! h = Some x →
  (the_handler h ≫= λ x, store h (f x)) w = Ok () (set_heap (<[h := f x]> (heap w)) w).
Proof. intros Hx. unfold mbind, M_bind, bind, the_handler, store, modify. by rewrite Hx. Qed.

Lemma addHandler_new c h w :
  h ∉ handlers (the_logger c w) →
  addHandler c h w =
  Ok () (put_logger c (mk_logger (l_name (the_logger c w)) (l_level (the_logger c w))
                         (handlers (the_logger c w) ++ [h])
                         (propagate (the_logger c w)) (disabled (the_logger c w))) w).
Proof.
  intros Hh. unfold addHandler, mbind, M_bind, bind, get, set_handlers, modify.
  by rewrite bool_decide_eq_false_2.
Qed.

Lemma StreamHandler_init_eq w :
  StreamHandler_init w =
  Ok (fresh (dom (heap w)))
     (set_heap (<[fresh (dom (heap w)) :=
                  mk_handler StreamHandler NOTSET None None "" "" 0 0 "" [] 0 0]> (heap w)) w).
Proof. reflexivity. Qed.

(** What a returning call of [create_rotating_logger] leaves behind. *)
Lemma create_rotating_logger_Ok env name log_file log_dir lvl wh intv bc console cf w lg w' :
  create_rotating_logger env name log_file log_dir lvl wh intv bc console cf w = Ok lg w' →
  ∃ hf xf fd,
    lg = ref_of name ∧ registered lg w' ∧ l_level (the_logger lg w') = lvl ∧
    heap w !! hf = None ∧ heap w' !! hf = Some xf ∧
    h_class xf = TimedRotatingFileHandler ∧ level xf = lvl ∧
    formatter xf = Some (default default_format cf) ∧
    suffix xf = "%Y-%m-%d_%H-%M-%S" ∧
    baseFilename xf = Path.join log_dir log_file ∧ backupCount xf = bc ∧
    stream xf = Some fd ∧ is_Some (fds (fs w') !! fd) ∧
    (∃ base sfx pat dow, when_table (Str.upper wh) = inr (base, sfx, pat, dow) ∧
       interval xf = base * intv ∧ extMatch xf = pat ∧ when xf = Str.upper wh) ∧
    (∀ fd0 i0, fds (fs w) !! fd0 = Some i0 → fds (fs w') !! fd0 = Some i0) ∧
    (∀ h x, heap w !! h = Some x → heap w' !! h = Some x) ∧
    if console then
      ∃ hc xc, hc ≠ hf ∧ heap w !! hc = None ∧ heap w' !! hc = Some xc ∧
        h_class xc = StreamHandler ∧ level xc = lvl ∧
        formatter xc = Some (default default_format cf) ∧
        handlers (the_logger lg w') = [hf; hc]
    else handlers (the_logger lg w') = [hf].
Proof.
  intros H. unfold create_rotating_logger in H.
  apply bind_Ok in H as (c & w1 & Hget & H).
  apply getLogger_Ok in Hget as (-> & Hreg & Hheap1 & Hfs1).
  apply bind_Ok in H as ([] & w2 & H2 & H).
  unfold Logger_setLevel, modify in H2. injection H2 as <-.
  apply bind_Ok in H as (w2' & w2'' & H2 & H). injection H2 as <- <-.
  apply bind_Ok in H as ([] & w3 & H3 & H).
  rewrite the_logger_put in H3. cbn [handlers] in H3.
  set (c := ref_of name) in *.
  assert (∃ L, w3 = put_logger c L w1 ∧ handlers L = [] ∧ l_level L = lvl) as (L & -> & HL & HLl).
  { case_bool_decide as Hh.
    - unfold set_handlers, modify in H3. injection H3 as <-.
      rewrite the_logger_put, put_logger_put. by eexists.
    - injection H3 as <-. eexists; split; [done|]. split; [|done].
      simpl. by destruct (decide (handlers (the_logger c w1) = [])). }
  clear H3.
  apply bind_Ok in H as (w3' & w3'' & H3' & H). injection H3' as <- <-.
  apply bind_Ok in H as ([] & w4 & H4 & H).
  apply ensure_dir_Ok in H4 as (ds & out & ->).
  apply bind_Ok in H as (fmt & w5 & H5 & H).
  unfold Formatter in H5. destruct (fmt_valid env _); [|done]. injection H5 as <- <-.
  apply bind_Ok in H as (hf & w6 & H6 & H).
  apply TimedRotatingFileHandler_init_Ok in H6
    as (f' & x & fd & Hhf & -> & Hcl & Hbase & Hbc & Hstr & Hfd & Hwhen & Hold).
  unfold Handler_setLevel, Handler_setFormatter in H.
  erewrite bind_step in H by (apply update_handler_Ok; simpl; apply lookup_insert_eq).
  erewrite bind_step in H by (apply update_handler_Ok; simpl; apply lookup_insert_eq).
  erewrite bind_step in H by (apply update_handler_Ok; simpl; apply lookup_insert_eq).
  simpl in H.
  match type of H with (_ ≫= _) ?W0 = _ => set (W := W0) in * end.
  assert (the_logger c W = L) as HLW.
  { rewrite <- (the_logger_put c L w1). by apply the_logger_frame. }
  rewrite (bind_step _ _ _ _ _ (addHandler_new c hf W ltac:(rewrite HLW, HL; apply not_elem_of_nil))) in H.
  rewrite HLW, HL in H. cbn [app] in H.
  assert (heap w !! hf = None) as Hfresh.
  { rewrite Hhf. simpl. destruct c; simpl; rewrite Hheap1; apply fresh_heap_None. }
  assert (heap W !! hf = Some (set_suffix "%Y-%m-%d_%H-%M-%S"
            (set_formatter (Some (default default_format cf)) (set_level lvl x)))) as HhfW.
  { subst W. simpl. rewrite lookup_insert_eq. by destruct cf. }
  assert (∀ h y, heap w !! h = Some y → heap W !! h = Some y) as HoldW.
  { intros h y Hy. subst W. simpl. rewrite !lookup_insert_ne by congruence.
    destruct c; simpl; by rewrite Hheap1. }
  assert (fs W = f') as HfsW by done.
  assert (∀ fd0 i0, fds (fs w) !! fd0 = Some i0 → fds f' !! fd0 = Some i0) as Hold'.
  { intros fd0 i0 H0. apply Hold. simpl. destruct c; simpl; by rewrite Hfs1. }
  clearbody W. clear Hold.
  apply bind_Ok in H as ([] & w7 & H7 & H). unfold ret in H. injection H as <- <-.
  set (L1 := mk_logger (l_name L) (l_level L) [hf] (propagate L) (disabled L)) in *.
  exists hf, (set_suffix "%Y-%m-%d_%H-%M-%S"
            (set_formatter (Some (default default_format cf)) (set_level lvl x))), fd.
  destruct console.
  - apply bind_Ok in H7 as (hc & w8 & Hc & H7).
    rewrite StreamHandler_init_eq in Hc. injection Hc as <- <-.
    rewrite heap_put_logger in H7.
    set (hc := fresh (dom (heap W))) in *.
    assert (heap W !! hc = None) as HhcW by apply fresh_heap_None.
    assert (hc ≠ hf) as Hne by congruence.
    erewrite bind_step in H7 by (apply update_handler_Ok; simpl; apply lookup_insert_eq).
    erewrite bind_step in H7 by (apply update_handler_Ok; simpl; apply lookup_insert_eq).
    match type of H7 with addHandler _ _ ?W0 = _ => set (W1 := W0) in * end.
    assert (the_logger c W1 = L1) as HL1.
    { rewrite <- (the_logger_put c L1 W). by apply the_logger_frame. }
    rewrite addHandler_new in H7
      by (rewrite HL1; simpl; by intros ->%list_elem_of_singleton).
    injection H7 as <-. rewrite HL1. cbn [l_name l_level handlers propagate disabled L1 app].
    match goal with |- context[registered c ?W0] => set (Wf := W0) end.
    set (xc := set_formatter (Some (default default_format cf))
                 (set_level lvl (mk_handler StreamHandler NOTSET None None "" "" 0 0 "" [] 0 0))).
    assert (heap Wf = <[hc := xc]> (heap W)) as Hheapf.
    { subst Wf W1. rewrite heap_put_logger. simpl. rewrite ?heap_put_logger.
      rewrite !insert_insert_eq. by destruct cf. }
    assert (fs Wf = f') as Hfsf.
    { subst Wf W1. rewrite fs_put_logger. simpl. by rewrite ?fs_put_logger. }
    assert (handlers (the_logger c Wf) = [hf; hc] ∧ l_level (the_logger c Wf) = lvl) as [Hhs Hlv].
    { subst Wf. by rewrite the_logger_put. }
    rewrite Hheapf, Hfsf, Hlv.
    rewrite (lookup_insert_ne _ hc hf), HhfW by done.
    repeat split; try done.
    + apply registered_put.
    + intros h y Hy. apply HoldW in Hy. rewrite lookup_insert_ne by congruence. done.
    + exists hc, xc. rewrite lookup_insert_eq, Hhs.
      repeat split; try done.
      destruct (heap w !! hc) eqn:E; [|done]. apply HoldW in E. congruence.
  - unfold ret in H7. injection H7 as <-.
    rewrite the_logger_put, heap_put_logger, fs_put_logger, HfsW, HhfW.
    repeat split; try done. apply registered_put.
Qed.


(** C9.  When [create_rotating_logger] returns, the logger of the name
    holds exactly one [TimedRotatingFileHandler] followed by one
    [StreamHandler] if [console_output] is true, and exactly the one
    [TimedRotatingFileHandler] otherwise, whatever the state before the
    call was (in particular however often the name was configured). *)
Theorem create_rotating_logger_handler_count
    env name log_file log_dir lvl wh intv bc console cf w lg w' :
  create_rotating_logger env name log_file log_dir lvl wh intv bc console cf w = Ok lg w' →
  lg = ref_of name ∧
  ∃ hf xf, heap w' !! hf = Some xf ∧ h_class xf = TimedRotatingFileHandler ∧
    if console then
      ∃ hc xc, heap w' !! hc = Some xc ∧ h_class xc = StreamHandler ∧
               handlers (the_logger lg w') = [hf; hc]
    else handlers (the_logger lg w') = [hf].
Proof.
  intros H. apply create_rotating_logger_Ok in H
    as (hf & xf & fd & Hlg & _ & _ & _ & Hhf & Hcl & _ & _ & _ & _ & _ & _ & _ & _ & _ & _ & Hcon).
  split; [done|]. exists hf, xf. do 2 (split; [done|]).
  destruct console; [|done].
  destruct Hcon as (hc & xc & _ & _ & Hhc & Hclc & _ & _ & Hhs). by exists hc, xc.
Qed.



(** C8.  After [create_rotating_logger] returned for a name, the logger
    is in the registry, and in every state in which it still is,
    [get_existing_logger] returns that same logger and creates nothing
    (the state is unchanged). *)
Theorem get_existing_logger_returns_constructed
    env name log_file log_dir lvl wh intv bc console cf w lg w' :
  create_rotating_logger env name log_file log_dir lvl wh intv bc console cf w = Ok lg w' →
  registered lg w' ∧
  ∀ w'', registered lg w'' → get_existing_logger name w'' = Ok lg w''.
Proof.
  intros H. apply create_rotating_logger_Ok in H as (hf & xf & fd & -> & Hreg & _).
  split; [done|]. intros w'' Hr.
  unfold get_existing_logger, getLogger, ref_of in *.
  destruct (_ || _); [done|].
  unfold mbind, M_bind, bind, get. simpl in Hr. by destruct Hr as [l ->].
Qed.

Lemma bind_Raise {A B} (m : M A) (k : A → M B) w e w1 :
  m w = Raise e w1 → (m ≫= k) w = Raise e w1.
Proof. unfold mbind, M_bind, bind. by intros ->. Qed.

Lemma open_append_returns p w :
  (∃ fd w1, Os.open_append p w = Ok fd w1) ∨ (∃ e w1, Os.open_append p w = Raise e w1).
Proof. unfold Os.open_append. repeat case_match; eauto. Qed.

Lemma TimedRotatingFileHandler_init_invalid env filename wh intv bc w e :
  when_table (Str.upper wh) = inl e →
  ∃ e' w1, TimedRotatingFileHandler_init env filename wh intv bc w = Raise e' w1.
Proof.
  intros Hw. unfold TimedRotatingFileHandler_init.
  destruct (open_append_returns filename w) as [(fd & w1 & Ho)|(e' & w1 & Ho)].
  - rewrite (bind_step _ _ _ _ _ Ho), Hw. by eexists _, _.
  - rewrite (bind_Raise _ _ _ _ _ Ho). by eexists _, _.
Qed.

Lemma ensure_dir_returns log_dir w :
  let m := (if negb (Os.exists_ log_dir w)
            then Os.makedirs log_dir ≫= λ _ : (),
                 modify (λ w0, set_stdout (stdout w0 ++ ["Log directory created: " +:+ log_dir]) w0)
            else ret ()) in
  (∃ w1, m w = Ok () w1) ∨ (∃ e w1, m w = Raise e w1).
Proof.
  simpl. destruct (negb _); [|left; by eexists].
  pose proof (dirs_only_makedirs log_dir w) as Hd.
  destruct (Os.makedirs log_dir w) as [[] w1|e w1|] eqn:E; [| |done].
  - left. rewrite (bind_step _ _ _ _ _ E). by eexists.
  - right. rewrite (bind_Raise _ _ _ _ _ E). by eexists _, _.
Qed.

(** C5, amended.  A call whose [when] is not in the table of
    [TimedRotatingFileHandler] ([S], [M], [H], [D], [midnight], [W0] to
    [W6], in either case) raises at construction time and returns no
    logger. *)
Theorem create_rotating_logger_rejects_unknown_when
    env name log_file log_dir lvl wh intv bc console cf w e :
  when_table (Str.upper wh) = inl e →
  ∃ e' w',
    create_rotating_logger env name log_file log_dir lvl wh intv bc console cf w = Raise e' w'.
Proof.
  intros Hw. unfold create_rotating_logger.
  assert (∃ w1, getLogger name w = Ok (ref_of name) w1) as [w1 Hg].
  { unfold getLogger, ref_of, mbind, M_bind, bind, get, modify, ret.
    destruct (_ || _); [by eexists|]. destruct (loggerDict w !! name); by eexists. }
  rewrite (bind_step _ _ _ _ _ Hg).
  erewrite bind_step by reflexivity.
  erewrite bind_step by reflexivity.
  match goal with |- context[(?m ≫= _) ?W0] =>
    assert (∃ w3, m W0 = Ok () w3) as [w3 H3] end.
  { case_bool_decide; by eexists. }
  rewrite (bind_step _ _ _ _ _ H3).
  erewrite bind_step by reflexivity.
  destruct (ensure_dir_returns log_dir w3) as [(w4 & H4)|(e4 & w4 & H4)]; simpl in H4.
  2:{ rewrite (bind_Raise _ _ _ _ _ H4). by eexists _, _. }
  rewrite (bind_step _ _ _ _ _ H4).
  unfold Formatter. destruct (fmt_valid env _).
  2:{ erewrite bind_Raise by reflexivity. by eexists _, _. }
  erewrite bind_step by reflexivity.
  destruct (TimedRotatingFileHandler_init_invalid env (Path.join log_dir log_file) wh intv bc w4 e Hw)
    as (e' & w5 & H5).
  rewrite (bind_Raise _ _ _ _ _ H5). by eexists _, _.
Qed.

Lemma write_Raise fd s w e w1 : Os.write fd s w = Raise e w1 → w1 = w.
Proof. unfold Os.write. repeat case_match; congruence. Qed.

(** C2, amended.  When the append of the formatted line to the active
    file fails, the handler does not raise: the error goes to
    [handleError], which reports it on [sys.stderr], the call returns
    normally and the file is left without the record. *)
Theorem emit_write_failure_is_handled env h x fd r msg e w w1 :
  heap w !! h = Some x → h_class x = TimedRotatingFileHandler →
  stream x = Some fd → clock w < rolloverAt x →
  fmt_format env (default "%(message)s" (formatter x)) r = Some msg →
  Os.write fd (msg +:+ terminator) w = Raise e w1 →
  Handler_handle env h r w =
  Ok tt (set_stderr (stderr w ++ ["--- Logging error ---"]) w).
Proof.
  intros Hx Hc Hs Ht Hf Hw. pose proof (write_Raise _ _ _ _ _ Hw) as ->.
  unfold Handler_handle, BaseRotatingHandler_emit, shouldRollover, FileHandler_emit,
    StreamHandler_emit, format, handleError, try_except, mbind, M_bind, bind, the_handler,
    get, modify, ret, raise.
  rewrite Hx, Hc. simpl. rewrite Hx. simpl.
  destruct (clock w >=? rolloverAt x) eqn:E; [lia|].
  simpl. rewrite Hx, Hs. simpl. rewrite Hx, Hs. simpl. rewrite Hx, Hf, Hc, Hs, Hw. done.
Qed.

(** [BaseRotatingHandler.emit] never raises: every exception ends in
    [handleError]. *)
Lemma BaseRotatingHandler_emit_never_raises env h r w e w' :
  BaseRotatingHandler_emit env h r w ≠ Raise e w'.
Proof.
  unfold BaseRotatingHandler_emit, try_except, handleError, modify.
  by case_match.
Qed.







Lemma append_empty_r s : s +:+ "" = s.
Proof.
  induction s as [|a s IH]; [done|].
  change (String a (s +:+ "") = String a s). by rewrite IH.
Qed.

Lemma dfn_of_neq_base x t : dfn_of x t ≠ baseFilename x.
Proof.
  unfold dfn_of, rotation_filename. intros Heq.
  rewrite <- (append_empty_r (baseFilename x)) in Heq at 2.
  by apply (inj (String.append _)) in Heq.
Qed.











Lemma digits_small fuel n : 0 <= n < 10 → Time.digits (S fuel) n = String (Time.digit n) "".
Proof. intros Hn. cbn [Time.digits]. destruct (n <? 10) eqn:E; [done|lia]. Qed.

Lemma digits_two fuel n :
  10 <= n < 100 → Time.digits (S (S fuel)) n = two n "".
Proof.
  intros Hn. cbn [Time.digits]. destruct (n <? 10) eqn:E; [lia|].
  assert (0 <= n / 10 < 10) by (split; [apply Z.div_pos; lia|apply Z.div_lt_upper_bound; lia]).
  destruct (n / 10 <? 10) eqn:E'; [done|lia].
Qed.

Lemma digits_four fuel n :
  1000 <= n < 10000 → Time.digits (S (S (S (S fuel)))) n = four n "".
Proof.
  intros Hn. unfold four, two. cbn [Time.digits].
  assert (100 <= n / 10 < 1000) by (split; [apply Z.div_le_lower_bound; lia|apply Z.div_lt_upper_bound; lia]).
  assert (10 <= n / 10 / 10 < 100) by (split; [apply Z.div_le_lower_bound; lia|apply Z.div_lt_upper_bound; lia]).
  assert (1 <= n / 10 / 10 / 10 < 10) by (split; [apply Z.div_le_lower_bound; lia|apply Z.div_lt_upper_bound; lia]).
  destruct (n <? 10) eqn:E1; [lia|]. destruct (n / 10 <? 10) eqn:E2; [lia|].
  destruct (n / 10 / 10 <? 10) eqn:E3; [lia|]. destruct (n / 10 / 10 / 10 <? 10) eqn:E4; [|lia].
  rewrite !Z.div_div by lia. change (10 * 10) with 100. change (100 * 10) with 1000.
  unfold Time.digit.
  replace (n / 1000 mod 10) with (n / 100 / 10 mod 10)
    by (rewrite Z.div_div by lia; done).
  replace (n / 100 mod 10) with ((n / 100) mod 10) by done.
  replace (n / 10 mod 10) with (n mod 100 / 10 mod 10).
  2:{ rewrite (Z.div_mod n 100) at 2 by lia.
      replace (100 * (n / 100) + n mod 100) with (n mod 100 + (10 * (n / 100)) * 10) by lia.
      rewrite Z.div_add by lia. rewrite Z.add_mod by lia.
      rewrite Z.mul_comm, Z.mod_mul by lia. rewrite Z.add_0_r, Z.mod_mod by lia. done. }
  replace (n mod 10) with (n mod 100 mod 10).
  2:{ rewrite (Z.div_mod n 100) at 2 by lia.
      replace (100 * (n / 100) + n mod 100) with (n mod 100 + (10 * (n / 100)) * 10) by lia.
      by rewrite Z.mod_add by lia. }
  replace (n / (10 * 100)) with (n / 100 / 10)
    by (rewrite Z.div_div by lia; f_equal; lia).
  reflexivity.
Qed.

Lemma zpad_two n r : 0 <= n <= 99 → Time.zpad 2 n +:+ r = two n r.
Proof.
  intros Hn. unfold Time.zpad, Time.decimal.
  destruct (Z_lt_le_dec n 10) as [Hlt|Hge].
  - rewrite digits_small by lia. unfold two.
    replace (n / 10) with 0 by (symmetry; apply Z.div_small; lia). reflexivity.
  - pose proof (Z.log2_le_mono 10 n ltac:(lia)) as Hl. change (Z.log2 10) with 3 in Hl.
    destruct (Z.to_nat (Z.log2 n)) as [|k] eqn:E; [lia|].
    rewrite digits_two by lia. reflexivity.
Qed.

Lemma zpad_four n r : 1000 <= n <= 9999 → Time.zpad 4 n +:+ r = four n r.
Proof.
  intros Hn. unfold Time.zpad, Time.decimal.
  pose proof (Z.log2_le_mono 1000 n ltac:(lia)) as Hl. change (Z.log2 1000) with 9 in Hl.
  destruct (Z.to_nat (Z.log2 n)) as [|[|[|k]]] eqn:E; [lia..|].
  rewrite digits_four by lia. reflexivity.
Qed.

Lemma strftime_stamp t :
  tm_valid t → Time.strftime "%Y-%m-%d_%H-%M-%S" t = fixed_width_stamp t.
Proof.
  intros (Hy & Hm & Hd & HH & HM & HS).
  change (Time.strftime "%Y-%m-%d_%H-%M-%S" t) with
    (Time.zpad 4 (tm_year t) +:+ String "-" (Time.zpad 2 (tm_mon t) +:+ String "-"
      (Time.zpad 2 (tm_mday t) +:+ String "_" (Time.zpad 2 (tm_hour t) +:+ String "-"
        (Time.zpad 2 (tm_min t) +:+ String "-" (Time.zpad 2 (tm_sec t) +:+ "")))))).
  rewrite zpad_four by lia. rewrite !zpad_two by lia. reflexivity.
Qed.

Lemma stamp_length t : String.length (fixed_width_stamp t) = 19%nat.
Proof. reflexivity. Qed.








(** C1, as the code behaves.  With the defaults of the module
    ([when="midnight"]) and [backup_count=1], two rotations leave two
    archives in the directory: the suffix the module sets,
    [%Y-%m-%d_%H-%M-%S], does not match the pattern [extMatch] that
    [TimedRotatingFileHandler] keeps for [midnight], so
    [getFilesToDelete] finds nothing to delete. *)
Theorem daily_rotation_keeps_more_than_backup_count :
  files <$> exec daily_keep_one (set_clock T0 world0) =
  Some ["logs/a.log"; "logs/a.log.2025-07-15_00-00-00"; "logs/a.log.2025-07-16_00-00-00"].
Proof. vm_compute. reflexivity. Qed.

(** With [when="S"] the suffix and the pattern agree, and the same
    scenario keeps the one newest archive. *)
Lemma secondly_rotation_keeps_backup_count :
  files <$> exec secondly_keep_one (set_clock T0 world0) =
  Some ["logs/a.log"; "logs/a.log.2025-07-15_11-46-41"].
Proof. vm_compute. reflexivity. Qed.

(** C2 fails as stated: on a full device the record at the configured
    level is not written, and [Logger.log] returns normally; the only
    trace is the report on [sys.stderr]. *)
Lemma write_failure_is_not_raised :
  INFO >= INFO ∧
  Os.write 0%nat ("t: lost" +:+ terminator) full_disk_world =
    Raise (OSError "No space left on device") full_disk_world ∧
  log utc_env (Some "t") INFO "lost" full_disk_world =
    Ok tt (set_stderr ["--- Logging error ---"] full_disk_world) ∧
  content "logs/a.log" (set_stderr ["--- Logging error ---"] full_disk_world) = Some [].
Proof. repeat split; vm_compute; (reflexivity || discriminate). Qed.

(** C5 fails as stated: a negative interval is accepted, the call
    returns a logger; the first record then never returns from the
    catch-up loop of [doRollover]. *)
Lemma negative_interval_is_accepted :
  returned (create_rotating_logger utc_env "t" "a.log" "logs" INFO "S" (-1) 1 true None
              (set_clock T0 world0)) = true ∧
  (w ← exec (create_rotating_logger utc_env "t" "a.log" "logs" INFO "S" (-1) 1 true None)
            (set_clock T0 world0);
   exec (log utc_env (Some "t") INFO "x") w) = None.
Proof. split; vm_compute; reflexivity. Qed.

(** ** Witnesses *)

Lemma below_level_is_noop_witness :
  log utc_env (Some "t") DEBUG "quiet" configured_once = Ok tt configured_once.
Proof.
  apply (below_level_is_noop utc_env (Some "t") INFO DEBUG "quiet" configured_once);
    vm_compute; reflexivity.
Defined.

Lemma create_rotating_logger_handler_count_witness :
  Some "t" = ref_of "t" ∧
  ∃ hf xf, heap configured_once !! hf = Some xf ∧ h_class xf = TimedRotatingFileHandler ∧
    ∃ hc xc, heap configured_once !! hc = Some xc ∧ h_class xc = StreamHandler ∧
             handlers (the_logger (Some "t") configured_once) = [hf; hc].
Proof.
  apply (create_rotating_logger_handler_count utc_env "t" "a.log" "logs" INFO "midnight" 1 7
           true None (set_clock T0 world0) (Some "t") configured_once).
  vm_compute. reflexivity.
Defined.



Lemma get_existing_logger_returns_constructed_witness :
  registered (Some "t") configured_once ∧
  ∀ w'', registered (Some "t") w'' → get_existing_logger "t" w'' = Ok (Some "t") w''.
Proof.
  apply (get_existing_logger_returns_constructed utc_env "t" "a.log" "logs" INFO "midnight" 1 7
           true None (set_clock T0 world0) (Some "t") configured_once).
  vm_compute. reflexivity.
Defined.

Lemma create_rotating_logger_rejects_unknown_when_witness :
  ∃ e' w',
    create_rotating_logger utc_env "t" "a.log" "logs" INFO "fortnightly" 1 7 true None world0
    = Raise e' w'.
Proof.
  apply (create_rotating_logger_rejects_unknown_when utc_env "t" "a.log" "logs" INFO
           "fortnightly" 1 7 true None world0
           (ValueError "Invalid rollover interval specified")).
  reflexivity.
Defined.

Lemma emit_write_failure_is_handled_witness :
  Handler_handle utc_env 0%nat (mk_record "t" INFO "lost") full_disk_world =
  Ok tt (set_stderr (stderr full_disk_world ++ ["--- Logging error ---"]) full_disk_world).
Proof.
  eapply (emit_write_failure_is_handled utc_env 0%nat _ 0%nat (mk_record "t" INFO "lost")
            _ _ full_disk_world _).
  - vm_compute. reflexivity.
  - reflexivity.
  - reflexivity.
  - vm_compute. reflexivity.
  - reflexivity.
  - vm_compute. reflexivity.
Defined.



(** * Further properties *)

Lemma catch_up_diverges fuel n c i :
  i <= 0 → n <= c → catch_up fuel n c i = None.
Proof.
  revert n. induction fuel as [|fuel IH]; intros n Hi Hn; simpl;
    destruct (n <=? c) eqn:E; try lia; [done|]. apply IH; lia.
Qed.

Lemma catch_up_future fuel n c i t :
  catch_up fuel n c i = Some t → c < t ∧ ∃ k : nat, t = n + Z.of_nat k * i.
Proof.
  revert n. induction fuel as [|fuel IH]; intros n; simpl;
    destruct (n <=? c) eqn:E; try done.
  - intros [= <-]. split; [lia|]. exists 0%nat. lia.
  - intros [Hlt [k ->]]%IH. split; [done|]. exists (S k). lia.
  - intros [= <-]. split; [lia|]. exists 0%nat. lia.
Qed.

Lemma catch_up_terminates n c i :
  0 < i → ∃ t, catch_up (Z.to_nat (c - n + 1)) n c i = Some t.
Proof.
  intros Hi. remember (Z.to_nat (c - n + 1)) as fuel eqn:Hf.
  assert (c - n + 1 <= Z.of_nat fuel) as Hle by lia. clear Hf.
  revert n Hle. induction fuel as [|fuel IH]; intros n Hle; simpl;
    destruct (n <=? c) eqn:E; try lia; eauto.
  apply IH. lia.
Qed.

Lemma dfn_of_nonempty x t : dfn_of x t ≠ "".
Proof.
  unfold dfn_of, rotation_filename. destruct (baseFilename x); discriminate.
Qed.

(** What a returning rotation without pruning does to the state. *)
Lemma doRollover_inv env h x w w' :
  heap w !! h = Some x → backupCount x <= 0 →
  Os.isfile (baseFilename x) w = true →
  doRollover env h w = Ok tt w' →
  let base := baseFilename x in
  let dfn := dfn_of x (timeTuple_of env x (clock w)) in
  let j := fresh (dom (inodes (fs w))) in
  ∃ i fd t,
    names (fs w) !! base = Some i ∧
    names (fs w') = <[base := j]> (<[dfn := i]> (delete base (delete dfn (names (fs w))))) ∧
    inodes (fs w') = <[j := mk_inode [] (clock w)]> (inodes (fs w)) ∧
    dirs (fs w') = dirs (fs w) ∧ disk_free (fs w') = disk_free (fs w) ∧
    catch_up (Z.to_nat (clock w - computeRollover env x (clock w) + 1))
             (computeRollover env x (clock w)) (clock w) (interval x) = Some t ∧
    heap w' = <[h := set_rolloverAt (dst_adjusted env x (clock w) t) (set_stream (Some fd) x)]>
                (heap w) ∧
    fds (fs w') !! fd = Some j ∧
    clock w' = clock w ∧ stdout w' = stdout w ∧ stderr w' = stderr w ∧
    loggerDict w' = loggerDict w ∧ root w' = root w.
Proof.
  intros Hx Hbc Hfile H base dfn j. unfold doRollover in H.
  apply bind_Ok in H as (x0 & w0 & H0 & H).
  unfold the_handler in H0. rewrite Hx in H0. injection H0 as <- <-.
  apply bind_Ok in H as ([] & w1 & H1 & H).
  assert (∃ fds1, w1 = set_heap (<[h := set_stream None x]> (heap w))
                         (set_fs (mk_fs (dirs (fs w)) (names (fs w)) (inodes (fs w)) fds1
                                        (disk_free (fs w))) w)) as (fds1 & ->).
  { destruct (stream x) as [fd|] eqn:Hs.
    - apply bind_Ok in H1 as ([] & w1' & Hc & H1). unfold Os.close in Hc. injection Hc as <-.
      unfold store, modify in H1. injection H1 as <-. by eexists.
    - injection H1 as <-. exists (fds (fs w)).
      destruct w as [[] ? ? ? hp ? ?]; simpl in *. unfold set_heap, set_fs; simpl. f_equal.
      apply map_eq. intros k. destruct (decide (k = h)) as [->|].
      + rewrite lookup_insert_eq, Hx. destruct x; simpl in *; by subst.
      + by rewrite lookup_insert_ne. }
  clear H1.
  apply bind_Ok in H as (x1 & w1 & H1 & H).
  unfold the_handler in H1. simpl in H1. rewrite lookup_insert_eq in H1. injection H1 as <- <-.
  apply bind_Ok in H as (w1 & w1' & H1 & H). injection H1 as <- <-.
  cbn [clock set_heap set_fs baseFilename set_stream backupCount] in H.
  change (dfn_of (set_stream None x) (timeTuple_of env (set_stream None x) (clock w)))
    with dfn in H.
  change (baseFilename x) with base in H.
  match type of H with (_ ≫= _) ?W0 = _ => set (W1 := W0) in * end.
  assert (dfn ≠ base) as Hdb by apply dfn_of_neq_base.
  assert (dfn ≠ "") as Hdne by apply dfn_of_nonempty.
  apply bind_Ok in H as ([] & w2 & H2 & H).
  assert (w2 = set_fs (Os.set_names (delete dfn (names (fs w))) (fs W1)) W1) as ->.
  { destruct (Os.exists_ dfn W1) eqn:Hex.
    - unfold Os.remove in H2. destruct (names (fs W1) !! dfn); [|done]. by injection H2 as <-.
    - injection H2 as <-. rewrite delete_id; [by destruct w as [[] ? ? ? ? ? ?]|].
      unfold Os.exists_, Os.isfile in Hex. apply andb_false_iff in Hex as [Hex|Hex].
      + apply negb_false_iff, String.eqb_eq in Hex. done.
      + apply orb_false_iff in Hex as [_ Hex]. apply bool_decide_eq_false in Hex.
        simpl in Hex. by apply eq_None_not_Some. }
  apply bool_decide_eq_true in Hfile as [i Hi]. change (baseFilename x) with base in Hi.
  apply bind_Ok in H as ([] & w3 & H3 & H).
  destruct (backupCount x >? 0) eqn:E; [lia|].
  apply bind_Ok in H as ([] & w4 & H4 & H). injection H4 as <-.
  apply bind_Ok in H as (fd & w5 & H5 & H).
  unfold _open in H5. cbn [baseFilename set_stream] in H5. change (baseFilename x) with base in H5.
  assert (base ≠ "") as Hbne.
  { intros Hb. unfold Os.open_append in H5. by rewrite Hb in H5. }
  unfold rotate in H3.
  apply bind_Ok in H3 as (w3' & w3'' & Hg & H3). injection Hg as <- <-.
  match type of H3 with context[Os.exists_ base ?W0] =>
    assert (Os.exists_ base W0 = true) as Hex end.
  { unfold Os.exists_, Os.isfile. simpl. apply andb_true_iff. split.
    - by apply negb_true_iff, String.eqb_neq.
    - apply orb_true_iff. right. apply bool_decide_eq_true.
      rewrite lookup_delete_ne by done. by eexists. }
  rewrite Hex in H3.
  unfold Os.rename in H3. simpl in H3. rewrite lookup_delete_ne, Hi in H3 by done.
  destruct (bool_decide _) in H3; [done|]. destruct (negb _) eqn:Hpar in H3; [done|].
  injection H3 as <-.
  unfold Os.open_append in H5. simpl in H5.
  rewrite lookup_insert_ne, lookup_delete_eq in H5 by done.
  destruct (base =? "")%string; [done|]. destruct (Os.isdir_b base _); [done|].
  destruct (negb _) in H5; [done|]. injection H5 as <- <-.
  apply bind_Ok in H as ([] & w6 & H6 & H). unfold store, modify in H6. injection H6 as <-.
  apply bind_Ok in H as (x6 & w6 & H6 & H).
  unfold the_handler in H6. simpl in H6. rewrite lookup_insert_eq in H6. injection H6 as <- <-.
  apply bind_Ok in H as (t & w7 & H7 & H).
  unfold catch_up_loop in H7. simpl in H7.
  destruct (catch_up _ _ _ _) as [t'|] eqn:Hcu in H7; [|done]. injection H7 as <- <-.
  unfold store, modify in H. injection H as <-. simpl.
  exists i, (fresh (dom fds1)), t'. rewrite !insert_insert_eq, lookup_insert_eq.
  repeat split; done.
Qed.

Lemma mkdir_Ok p w w1 :
  Os.mkdir p w = Ok tt w1 → p ≠ "" ∧ Os.isdir_b p (fs w1) = true ∧ ∃ ds, w1 = fs_dirs ds w.
Proof.
  unfold Os.mkdir. destruct (Os.exists_ p w); [done|].
  destruct (p =? "")%string eqn:E; [done|]. simpl.
  destruct (negb _); [done|]. intros [= <-]. split; [by apply String.eqb_neq|].
  split; [|by eexists]. unfold Os.isdir_b. simpl.
  rewrite bool_decide_eq_true_2 by set_solver. by rewrite orb_true_r.
Qed.

Lemma makedirs_Ok name w w1 :
  Os.makedirs name w = Ok tt w1 →
  name ≠ "" ∧ Os.isdir_b name (fs w1) = true ∧ ∃ ds, w1 = fs_dirs ds w.
Proof.
  intros H. pose proof (dirs_only_makedirs name w) as Hd. rewrite H in Hd.
  split; [|split; [|done]].
  all: unfold Os.makedirs in H; destruct (String.length name) as [|fuel];
    cbn [Os.makedirs_rec] in H.
  all: destruct (Path.split name) as [head tail];
    destruct (if (tail =? "")%string then Path.split head else (head, tail)) as [head' tail'].
  all: apply bind_Ok in H as (w0 & w0' & Hg & H); injection Hg as <- <-.
  all: apply bind_Ok in H as ([] & w2 & _ & H).
  all: unfold try_except in H.
  all: destruct (Os.mkdir name w2) as [[] w3|e w3|] eqn:Hm; [| |done].
  all: try (injection H as <-; by apply mkdir_Ok in Hm as (? & ? & _)).
  all: apply bind_Ok in H as (w4 & w4' & Hg & H); injection Hg as <- <-.
  all: destruct (Os.isdir_b name (fs w3)) eqn:Hi; [|done].
  all: destruct (name =? "")%string eqn:Hn; [done|].
  all: injection H as <-; try done; by apply String.eqb_neq.
Qed.

Lemma open_append_inv p w fd w1 :
  Os.open_append p w = Ok fd w1 →
  ∃ f' i, w1 = set_fs f' w ∧ p ≠ "" ∧
    fds f' !! fd = Some i ∧ names f' !! p = Some i ∧
    dirs f' = dirs (fs w) ∧ disk_free f' = disk_free (fs w) ∧
    (∀ q, q ≠ p → names f' !! q = names (fs w) !! q) ∧
    (∀ k nd, inodes (fs w) !! k = Some nd → inodes f' !! k = Some nd) ∧
    (∀ i0, names (fs w) !! p = Some i0 → i = i0) ∧
    (names (fs w) !! p = None → inodes f' !! i = Some (mk_inode [] (clock w))) ∧
    (∀ fd0 i0, fds (fs w) !! fd0 = Some i0 → fds f' !! fd0 = Some i0).
Proof.
  unfold Os.open_append. intros H.
  destruct (p =? "")%string eqn:Hp; [done|]. apply String.eqb_neq in Hp.
  destruct (Os.isdir_b p (fs w)); [done|]. destruct (negb _); [done|].
  assert (∀ fd0 i0 i1, fds (fs w) !! fd0 = Some i0 →
            <[fresh (dom (fds (fs w))) := i1]> (fds (fs w)) !! fd0 = Some i0) as Hfds.
  { intros fd0 i0 i1 H0. rewrite lookup_insert_ne; [done|].
    intros <-. by rewrite (not_elem_of_dom_1 _ _ (is_fresh (dom (fds (fs w))))) in H0. }
  destruct (names (fs w) !! p) as [i|] eqn:Hn; injection H as <- <-.
  - eexists _, i. split; [reflexivity|]. simpl. rewrite lookup_insert_eq.
    repeat split; auto; congruence.
  - eexists _, _. split; [reflexivity|]. simpl. rewrite !lookup_insert_eq.
    repeat split; auto; try done.
    + intros q Hq. by rewrite lookup_insert_ne.
    + intros k nd Hk. rewrite lookup_insert_ne; [done|].
      intros <-. by rewrite (not_elem_of_dom_1 _ _ (is_fresh (dom (inodes (fs w))))) in Hk.
Qed.

Lemma TimedRotatingFileHandler_init_inv env filename wh intv bc w h w1 :
  TimedRotatingFileHandler_init env filename wh intv bc w = Ok h w1 →
  ∃ f' x fd i,
    h = fresh (dom (heap w)) ∧
    w1 = set_heap (<[h := x]> (heap w)) (set_fs f' w) ∧
    stream x = Some fd ∧ baseFilename x = filename ∧
    fds f' !! fd = Some i ∧ names f' !! filename = Some i ∧
    dirs f' = dirs (fs w) ∧ disk_free f' = disk_free (fs w) ∧
    (∀ q, q ≠ filename → names f' !! q = names (fs w) !! q) ∧
    (∀ k nd, inodes (fs w) !! k = Some nd → inodes f' !! k = Some nd) ∧
    (∀ i0, names (fs w) !! filename = Some i0 → i = i0) ∧
    (names (fs w) !! filename = None → inodes f' !! i = Some (mk_inode [] (clock w))) ∧
    rolloverAt x =
      computeRollover env x (mtime (default (mk_inode [] 0) (inodes f' !! i))).
Proof.
  unfold TimedRotatingFileHandler_init. intros H.
  apply bind_Ok in H as (fd & w0 & Hopen & H).
  apply open_append_inv in Hopen
    as (f' & i & -> & Hne & Hfd & Hn & Hd & Hfree & Hq & Hino & Hi0 & Hnew & _).
  destruct (when_table (Str.upper wh)) as [e|[[[base sfx] pat] dow]] eqn:Hw; [done|].
  apply bind_Ok in H as (w0 & w0' & Hg & H). injection Hg as <- <-.
  apply bind_Ok in H as (t & w0 & Ht & H).
  assert (Os.exists_ filename (set_fs f' w) = true) as Hex.
  { unfold Os.exists_, Os.isfile. simpl. rewrite Hn.
    rewrite bool_decide_eq_true_2 by eauto. rewrite orb_true_r, andb_true_r.
    by apply negb_true_iff, String.eqb_neq. }
  rewrite Hex in Ht. unfold Os.stat_mtime in Ht. simpl in Ht. rewrite Hn in Ht.
  injection Ht as <- <-.
  apply bind_Ok in H as ([] & w0 & Hs & H). injection Hs as <-.
  injection H as <- <-. simpl.
  eexists f', _, fd, i. split; [done|]. split; [done|]. simpl.
  repeat split; done.
Qed.

Lemma the_logger_put_ne c c' l w : c' ≠ c → the_logger c' (put_logger c l w) = the_logger c' w.
Proof.
  intros Hne. destruct c as [n|], c' as [n'|]; simpl; try done.
  rewrite lookup_insert_ne; [done|congruence].
Qed.

Lemma getLogger_inv name w c w1 :
  getLogger name w = Ok c w1 →
  c = ref_of name ∧ registered c w1 ∧
  (w1 = w ∨ w1 = put_logger c (new_logger name) w ∧ the_logger c w = new_logger name).
Proof.
  unfold getLogger, ref_of, mbind, M_bind, bind, get, modify, ret.
  destruct (_ || _).
  { intros [= <- <-]. split; [done|]. split; [done|]. by left. }
  destruct (loggerDict w !! name) eqn:E; simpl; intros [= <- <-]; simpl.
  - rewrite E. split; [done|]. split; [done|]. by left.
  - rewrite lookup_insert_eq, E. split; [done|]. split; [done|]. by right.
Qed.

Lemma ensure_dir_inv log_dir w w1 :
  (if negb (Os.exists_ log_dir w)
   then Os.makedirs log_dir ≫= λ _ : (),
        modify (λ w0, set_stdout (stdout w0 ++ ["Log directory created: " +:+ log_dir]) w0)
   else ret ()) w = Ok () w1 →
  Os.exists_ log_dir w1 = true ∧
  ∃ ds, w1 = set_stdout ((stdout w ++ (if Os.exists_ log_dir w then []
       else ["Log directory created: " +:+ log_dir]))%list)
                        (fs_dirs ds w).
Proof.
  destruct (Os.exists_ log_dir w) eqn:Hex; simpl.
  - intros [= <-]. split; [done|]. exists (dirs (fs w)). rewrite app_nil_r.
    by destruct w as [[] ? ? ? ? ? ?].
  - intros H. apply bind_Ok in H as ([] & w0 & Hm & H).
    apply makedirs_Ok in Hm as (Hne & Hdir & ds & ->). injection H as <-.
    split; [|by eexists]. unfold Os.exists_. simpl. simpl in Hdir. rewrite Hdir.
    simpl. rewrite andb_true_r. by apply negb_true_iff, String.eqb_neq.
Qed.

Lemma put_logger_set_heap_put c l l' hp w :
  put_logger c l (set_heap hp (put_logger c l' w)) = put_logger c l (set_heap hp w).
Proof.
  destruct c; simpl; [|done]. unfold set_loggerDict, set_heap. simpl.
  by rewrite insert_insert_eq.
Qed.

Lemma stdout_put_logger c l w : stdout (put_logger c l w) = stdout w.
Proof. by destruct c. Qed.
Lemma stderr_put_logger c l w : stderr (put_logger c l w) = stderr w.
Proof. by destruct c. Qed.
Lemma clock_put_logger c l w : clock (put_logger c l w) = clock w.
Proof. by destruct c. Qed.

(** The state a returning call of [create_rotating_logger] leaves:
    streams, clock, file system, the first deadline, the other loggers. *)
Lemma create_rotating_logger_Ok_state
    env name log_file log_dir lvl wh intv bc console cf w lg w' :
  create_rotating_logger env name log_file log_dir lvl wh intv bc console cf w = Ok lg w' →
  let path := Path.join log_dir log_file in
  stdout w' = (stdout w ++ (if Os.exists_ log_dir w then []
       else ["Log directory created: " +:+ log_dir]))%list ∧
  stderr w' = stderr w ∧ clock w' = clock w ∧
  Os.exists_ log_dir w' = true ∧
  disk_free (fs w') = disk_free (fs w) ∧
  (∀ q, q ≠ path → names (fs w') !! q = names (fs w) !! q) ∧
  (∀ k nd, inodes (fs w) !! k = Some nd → inodes (fs w') !! k = Some nd) ∧
  (∀ c, c ≠ ref_of name → the_logger c w' = the_logger c w) ∧
  ∃ hf hs xf fd i,
    handlers (the_logger lg w') = hf :: hs ∧ heap w' !! hf = Some xf ∧
    stream xf = Some fd ∧ fds (fs w') !! fd = Some i ∧ names (fs w') !! path = Some i ∧
    (∀ i0, names (fs w) !! path = Some i0 → i = i0) ∧
    (names (fs w) !! path = None → inodes (fs w') !! i = Some (mk_inode [] (clock w))) ∧
    rolloverAt xf =
      computeRollover env xf (mtime (default (mk_inode [] 0) (inodes (fs w') !! i))).
Proof.
  intros H path. unfold create_rotating_logger in H.
  apply bind_Ok in H as (c & w1 & Hget & H).
  apply getLogger_inv in Hget as (-> & Hreg & Hw1).
  set (c := ref_of name) in *.
  assert (stdout w1 = stdout w ∧ stderr w1 = stderr w ∧ clock w1 = clock w ∧ fs w1 = fs w ∧
          heap w1 = heap w ∧ ∀ c', c' ≠ c → the_logger c' w1 = the_logger c' w)
    as (Ho1 & He1 & Hc1 & Hf1 & Hh1 & Hl1).
  { destruct Hw1 as [->|[-> _]]; [done|].
    rewrite stdout_put_logger, stderr_put_logger, clock_put_logger, fs_put_logger,
      heap_put_logger. repeat split; try done. intros c' Hc'. by apply the_logger_put_ne. }
  clear Hw1.
  apply bind_Ok in H as ([] & w2 & H2 & H).
  unfold Logger_setLevel, modify in H2. injection H2 as <-.
  apply bind_Ok in H as (w2' & w2'' & H2 & H). injection H2 as <- <-.
  apply bind_Ok in H as ([] & w3 & H3 & H).
  rewrite the_logger_put in H3. cbn [handlers] in H3.
  assert (∃ L, w3 = put_logger c L w1 ∧ handlers L = []) as (L & -> & HL).
  { case_bool_decide as Hh.
    - unfold set_handlers, modify in H3. injection H3 as <-.
      rewrite the_logger_put, put_logger_put. by eexists.
    - injection H3 as <-. eexists; split; [done|].
      simpl. by destruct (decide (handlers (the_logger c w1) = [])). }
  clear H3.
  apply bind_Ok in H as (w3' & w3'' & H3' & H). injection H3' as <- <-.
  apply bind_Ok in H as ([] & w4 & H4 & H).
  apply ensure_dir_inv in H4 as (Hex4 & ds & ->).
  apply bind_Ok in H as (fmt & w5 & H5 & H).
  unfold Formatter in H5. destruct (fmt_valid env _); [|done]. injection H5 as <- <-.
  apply bind_Ok in H as (hf & w6 & H6 & H).
  apply TimedRotatingFileHandler_init_inv in H6
    as (f' & x & fd & i & Hhf & -> & Hstr & Hbase & Hfd & Hn & Hd & Hfree & Hq & Hino & Hi0
        & Hnew & Hroll).
  cbn [fs names inodes disk_free dirs clock set_stdout fs_dirs set_fs]
    in Hd, Hfree, Hq, Hino, Hi0, Hnew.
  rewrite ?fs_put_logger, ?clock_put_logger, ?Hf1, ?Hc1 in Hd, Hfree, Hq, Hino, Hi0, Hnew.
  unfold Handler_setLevel, Handler_setFormatter in H.
  erewrite bind_step in H by (apply update_handler_Ok; simpl; apply lookup_insert_eq).
  erewrite bind_step in H by (apply update_handler_Ok; simpl; apply lookup_insert_eq).
  erewrite bind_step in H by (apply update_handler_Ok; simpl; apply lookup_insert_eq).
  simpl in H.
  match type of H with (_ ≫= _) ?W0 = _ => set (W := W0) in * end.
  set (xf := set_suffix "%Y-%m-%d_%H-%M-%S"
               (set_formatter (Some (default default_format cf)) (set_level lvl x))).
  assert (the_logger c W = L) as HLW.
  { rewrite <- (the_logger_put c L w1). by apply the_logger_frame. }
  assert (heap W !! hf = Some xf) as HhfW.
  { subst W xf. simpl. rewrite lookup_insert_eq. by destruct cf. }
  assert (fs W = f' ∧ stdout W = (stdout w ++ (if Os.exists_ log_dir w then []
       else ["Log directory created: " +:+ log_dir]))%list ∧ stderr W = stderr w ∧
          clock W = clock w ∧ ∀ c', c' ≠ c → the_logger c' W = the_logger c' w)
    as (HfW & HoW & HeW & HcW & HlW).
  { subst W. simpl. rewrite stdout_put_logger, stderr_put_logger, clock_put_logger.
    rewrite Ho1, He1, Hc1. repeat split; try done.
    - f_equal. f_equal. unfold Os.exists_, Os.isfile. simpl.
      by rewrite fs_put_logger, Hf1.
    - intros c' Hc'. rewrite <- Hl1 by done.
      rewrite <- (the_logger_put_ne c c' L w1) by done. by apply the_logger_frame. }
  clearbody W.
  rewrite (bind_step _ _ _ _ _ (addHandler_new c hf W ltac:(rewrite HLW, HL; apply not_elem_of_nil))) in H.
  rewrite HLW, HL in H. cbn [app] in H.
  set (L1 := mk_logger (l_name L) (l_level L) [hf] (propagate L) (disabled L)) in *.
  assert (∃ L2 hp, w' = put_logger c L2 (set_heap hp W) ∧ lg = c ∧
                   (∃ hs, handlers L2 = hf :: hs) ∧ hp !! hf = Some xf)
    as (L2 & hp & -> & -> & [hs HL2] & Hhp).
  { apply bind_Ok in H as ([] & w7 & H7 & H). unfold ret in H. injection H as <- <-.
    destruct console.
    - apply bind_Ok in H7 as (hc & w8 & Hc & H7).
      rewrite StreamHandler_init_eq in Hc. injection Hc as <- <-.
      rewrite heap_put_logger in H7.
      set (hc := fresh (dom (heap W))) in *.
      assert (heap W !! hc = None) as HhcW by apply fresh_heap_None.
      assert (hc ≠ hf) as Hne by congruence.
      erewrite bind_step in H7 by (apply update_handler_Ok; simpl; apply lookup_insert_eq).
      erewrite bind_step in H7 by (apply update_handler_Ok; simpl; apply lookup_insert_eq).
      match type of H7 with addHandler _ _ ?W0 = _ => set (W1 := W0) in * end.
      assert (the_logger c W1 = L1) as HL1.
      { rewrite <- (the_logger_put c L1 W). by apply the_logger_frame. }
      rewrite addHandler_new in H7
        by (rewrite HL1; simpl; by intros ->%list_elem_of_singleton).
      injection H7 as <-. rewrite HL1. subst W1. simpl.
      eexists _, _. split; [apply put_logger_set_heap_put|].
      split; [done|]. split; [by eexists|].
      rewrite !lookup_insert_ne by done. done.
    - unfold ret in H7. injection H7 as <-.
      exists L1, (heap W). split; [by destruct W|]. split; [done|]. split; [by eexists|done]. }
  rewrite stdout_put_logger, stderr_put_logger, clock_put_logger, fs_put_logger,
    the_logger_put, heap_put_logger. simpl. rewrite HfW.
  repeat split; try done.
  - unfold Os.exists_, Os.isfile in Hex4 |- *.
    cbn [fs names dirs set_stdout fs_dirs set_fs] in Hex4.
    rewrite fs_put_logger. cbn [fs set_heap]. rewrite HfW.
    apply andb_true_iff in Hex4 as [Hne Hor]. rewrite Hne. simpl.
    apply orb_true_iff in Hor as [Hdir|Hfile].
    + unfold Os.isdir_b in Hdir |- *. rewrite Hd. cbn [dirs] in Hdir. by rewrite Hdir.
    + apply orb_true_iff. right. apply bool_decide_eq_true.
      apply bool_decide_eq_true in Hfile. rewrite fs_put_logger, Hf1 in Hfile.
      destruct (decide (log_dir = path)) as [Heq|Hne'];
        [rewrite Heq; unfold path; by rewrite Hn|].
      rewrite Hq by exact Hne'. by rewrite fs_put_logger, Hf1.
  - rewrite Hfree. by rewrite ?fs_put_logger, ?Hf1.
  - intros q Hq'. rewrite Hq by done. by rewrite ?fs_put_logger, ?Hf1.
  - intros k nd Hk. apply Hino. by rewrite ?fs_put_logger, ?Hf1.
  - intros c' Hc'. rewrite the_logger_put_ne by done.
    rewrite <- HlW by done. by apply the_logger_frame.
  - exists hf, hs, xf, fd, i. repeat split; try done.
    + intros i0 H0. apply Hi0. by rewrite ?fs_put_logger, ?Hf1.
    + intros H0. rewrite Hnew; [by rewrite ?clock_put_logger, ?Hc1|].
      by rewrite ?fs_put_logger, ?Hf1.
Qed.

Lemma set_fs_id w : w = set_fs (fs w) w.
Proof. by destruct w. Qed.

Lemma fs_only_ret {A} (a : A) : fs_only (ret a).
Proof. intros w. exists (fs w). apply set_fs_id. Qed.

Lemma fs_only_raise {A} e : fs_only (@raise A e).
Proof. intros w. exists (fs w). apply set_fs_id. Qed.

Lemma fs_only_get : fs_only get.
Proof. intros w. exists (fs w). apply set_fs_id. Qed.

Lemma fs_only_bind {A B} (m : M A) (k : A → M B) :
  fs_only m → (∀ a, fs_only (k a)) → fs_only (m ≫= k).
Proof.
  intros Hm Hk w. unfold mbind, M_bind, bind. specialize (Hm w).
  destruct (m w) as [a w1|e w1|]; [|done..].
  destruct Hm as [f ->]. specialize (Hk a (set_fs f w)).
  destruct (k a (set_fs f w)) as [b w2|e w2|]; [| |done];
    destruct Hk as [f' ->]; by exists f'.
Qed.

Lemma fs_only_close fd : fs_only (Os.close fd).
Proof. intros w. by eexists. Qed.

Lemma fs_only_remove p : fs_only (Os.remove p).
Proof.
  intros w. unfold Os.remove. destruct (names (fs w) !! p); [by eexists|].
  exists (fs w). apply set_fs_id.
Qed.

Lemma fs_only_rename p q : fs_only (Os.rename p q).
Proof.
  intros w. unfold Os.rename. destruct (names (fs w) !! p); [|exists (fs w); apply set_fs_id].
  destruct (bool_decide _); [exists (fs w); apply set_fs_id|].
  destruct (negb _); [exists (fs w); apply set_fs_id|by eexists].
Qed.

Lemma fs_only_listdir d : fs_only (Os.listdir d).
Proof.
  intros w. unfold Os.listdir. destruct (_ || _); exists (fs w); apply set_fs_id.
Qed.

Lemma fs_only_open_append p : fs_only (Os.open_append p).
Proof.
  intros w. unfold Os.open_append.
  destruct (p =? "")%string; [exists (fs w); apply set_fs_id|].
  destruct (Os.isdir_b p (fs w)); [exists (fs w); apply set_fs_id|].
  destruct (negb _); [exists (fs w); apply set_fs_id|].
  destruct (names (fs w) !! p); by eexists.
Qed.

Lemma fs_only_rotate p q : fs_only (rotate p q).
Proof.
  unfold rotate. apply fs_only_bind; [apply fs_only_get|]. intros w.
  destruct (Os.exists_ p w); [apply fs_only_rename|apply fs_only_ret].
Qed.

Lemma fs_only_remove_all l : fs_only (remove_all l).
Proof.
  induction l as [|p l IH]; simpl; [apply fs_only_ret|].
  apply fs_only_bind; [apply fs_only_remove|done].
Qed.

Lemma fs_only_getFilesToDelete x : fs_only (getFilesToDelete x).
Proof.
  unfold getFilesToDelete. destruct (Path.split (baseFilename x)) as [dirName baseName].
  apply fs_only_bind; [apply fs_only_listdir|]. intros fileNames.
  destruct (Path.splitext baseName) as [n e].
  destruct (_ <? _); apply fs_only_ret.
Qed.

Lemma fs_only_Ok {A} (m : M A) w a w' :
  fs_only m → m w = Ok a w' → ∃ f, w' = set_fs f w.
Proof. intros Hm H. specialize (Hm w). by rewrite H in Hm. Qed.

(** X9.  For the interval policies ([S], [M], [H], [D]) with an
    interval that is zero or negative, a rotation never returns
    normally: the catch-up loop of [doRollover] cannot leave, whatever
    the state of the file system. *)
Theorem doRollover_nonpositive_interval env h x w w' :
  heap w !! h = Some x →
  (String.eqb (when x) "MIDNIGHT" || Str.startswith "W" (when x)) = false →
  interval x <= 0 →
  doRollover env h w ≠ Ok tt w'.
Proof.
  intros Hx Hwhen Hint H. unfold doRollover in H.
  apply bind_Ok in H as (x0 & w0 & H0 & H).
  unfold the_handler in H0. rewrite Hx in H0. injection H0 as <- <-.
  apply bind_Ok in H as ([] & w1 & H1 & H).
  assert (∃ f1 x1, w1 = set_heap (<[h := x1]> (heap w)) (set_fs f1 w) ∧
                   when x1 = when x ∧ interval x1 = interval x) as (f1 & x1 & -> & Hw1 & Hi1).
  { destruct (stream x) as [fd|] eqn:Hs.
    - apply bind_Ok in H1 as ([] & w1' & Hc & H1). injection Hc as <-.
      injection H1 as <-. by eexists _, _.
    - injection H1 as <-. exists (fs w), x. split; [|done].
      rewrite insert_id by done. by destruct w. }
  clear H1.
  apply bind_Ok in H as (x1' & w1 & H1 & H).
  unfold the_handler in H1. simpl in H1. rewrite lookup_insert_eq in H1. injection H1 as <- <-.
  apply bind_Ok in H as (w1 & w1' & H1 & H). injection H1 as <- <-.
  cbn [clock set_heap set_fs] in H.
  match type of H with (_ ≫= _) ?W0 = _ => set (W1 := W0) in * end.
  apply bind_Ok in H as ([] & w2 & H2 & H).
  assert (∃ f2, w2 = set_fs f2 W1) as [f2 ->].
  { eapply fs_only_Ok; [|done]. destruct (Os.exists_ _ _); [apply fs_only_remove|apply fs_only_ret]. }
  apply bind_Ok in H as ([] & w3 & H3 & H).
  apply (fs_only_Ok _ _ _ _ (fs_only_rotate _ _)) in H3 as [f3 ->].
  apply bind_Ok in H as ([] & w4 & H4 & H).
  assert (∃ f4, w4 = set_fs f4 W1) as [f4 ->].
  { assert (∃ f4, w4 = set_fs f4 (set_fs f3 (set_fs f2 W1))) as [f4 ->]; [|by eexists].
    eapply fs_only_Ok; [|done]. destruct (_ >? _); [|apply fs_only_ret].
    apply fs_only_bind; [apply fs_only_getFilesToDelete|intros; apply fs_only_remove_all]. }
  apply bind_Ok in H as (fd & w5 & H5 & H).
  apply (fs_only_Ok _ _ _ _ (fs_only_open_append _)) in H5 as [f5 ->].
  apply bind_Ok in H as ([] & w6 & H6 & H). unfold store, modify in H6. injection H6 as <-.
  apply bind_Ok in H as (x6 & w6 & H6 & H).
  unfold the_handler in H6. simpl in H6. rewrite lookup_insert_eq in H6. injection H6 as <- <-.
  apply bind_Ok in H as (t & w7 & H7 & _).
  unfold catch_up_loop in H7. cbn [clock set_heap set_fs] in H7.
  rewrite catch_up_diverges in H7; [done|cbn [interval set_stream]; lia|].
  unfold computeRollover. cbn [when interval set_stream]. rewrite Hw1, Hwhen, Hi1. lia.
Qed.

(** X1.  The directory is there when [create_rotating_logger] returns,
    and the line [Log directory created: <dir>] is printed on standard
    output exactly when it was not there before; nothing goes to standard
    error. *)
Theorem create_rotating_logger_directory
    env name log_file log_dir lvl wh intv bc console cf w lg w' :
  create_rotating_logger env name log_file log_dir lvl wh intv bc console cf w = Ok lg w' →
  Os.exists_ log_dir w' = true ∧
  stdout w' = (stdout w ++ (if Os.exists_ log_dir w then []
                            else ["Log directory created: " +:+ log_dir]))%list ∧
  stderr w' = stderr w.
Proof.
  intros H. apply create_rotating_logger_Ok_state in H as (Ho & He & _ & Hex & _). auto.
Qed.


(** X3.  Configuring one name leaves every other logger (its level, its
    handlers, its flags) as it was. *)
Theorem create_rotating_logger_other_loggers
    env name log_file log_dir lvl wh intv bc console cf w lg w' c :
  create_rotating_logger env name log_file log_dir lvl wh intv bc console cf w = Ok lg w' →
  c ≠ ref_of name → the_logger c w' = the_logger c w.
Proof.
  intros H Hc. apply create_rotating_logger_Ok_state in H as (_ & _ & _ & _ & _ & _ & _ & Hl & _).
  by apply Hl.
Qed.

(** X4.  A record handled by the file handler before the rotation
    deadline, on a device with room, appends exactly one chunk, the
    formatted line and a newline, to the file the stream is open on;
    no directory entry, no other file and neither console stream
    changes, and no rotation happens. *)
Theorem emit_appends_one_line env h x fd i nd r msg w :
  heap w !! h = Some x → h_class x = TimedRotatingFileHandler →
  stream x = Some fd → fds (fs w) !! fd = Some i → inodes (fs w) !! i = Some nd →
  clock w < rolloverAt x →
  fmt_format env (default "%(message)s" (formatter x)) r = Some msg →
  Z.of_nat (String.length (msg +:+ terminator)) <= disk_free (fs w) →
  Handler_handle env h r w =
  Ok tt (set_fs (mk_fs (dirs (fs w)) (names (fs w))
                       (<[i := mk_inode (chunks nd ++ [msg +:+ terminator]) (clock w)]>
                          (inodes (fs w)))
                       (fds (fs w))
                       (disk_free (fs w) - Z.of_nat (String.length (msg +:+ terminator)))) w).
Proof.
  intros Hx Hc Hs Hfd Hi Ht Hf Hfree.
  unfold Handler_handle, BaseRotatingHandler_emit, shouldRollover, FileHandler_emit,
    StreamHandler_emit, format, handleError, try_except, mbind, M_bind, bind, the_handler,
    get, modify, ret, raise.
  rewrite Hx, Hc. simpl. rewrite Hx. simpl.
  destruct (clock w >=? rolloverAt x) eqn:E; [lia|].
  simpl. rewrite Hx, Hs. simpl. rewrite Hx, Hs. simpl. rewrite Hx, Hf, Hc, Hs.
  unfold Os.write. rewrite Hfd, Hi. simpl.
  destruct (disk_free (fs w) <? _) eqn:E'; [lia|]. done.
Qed.

(** X5.  The console handler writes to standard error and to nothing
    else: the formatted line and a newline, or the error report when
    formatting fails.  It never raises. *)
Theorem console_handler_writes_to_stderr env h x r w :
  heap w !! h = Some x → h_class x = StreamHandler →
  Handler_handle env h r w =
  Ok tt (set_stderr
           (stderr w ++
            [match fmt_format env (default "%(message)s" (formatter x)) r with
             | Some msg => msg +:+ terminator
             | None => "--- Logging error ---"
             end]) w).
Proof.
  intros Hx Hc.
  unfold Handler_handle, StreamHandler_emit, format, handleError, try_except, mbind, M_bind,
    bind, the_handler, get, modify, ret, raise.
  rewrite Hx, Hc. simpl. rewrite Hx.
  destruct (fmt_format env _ r); simpl; by rewrite ?Hc.
Qed.

(** X6.  For the interval policies ([S], [M], [H], [D]) with a positive
    interval, a rotation that returns sets the next deadline to the time
    of the rotation plus the interval: the deadline is anchored at the
    moment the rotation happens, not at the deadline that was missed. *)
Theorem doRollover_next_deadline env h x w w' :
  heap w !! h = Some x → backupCount x <= 0 →
  Os.isfile (baseFilename x) w = true →
  (String.eqb (when x) "MIDNIGHT" || Str.startswith "W" (when x)) = false →
  0 < interval x →
  doRollover env h w = Ok tt w' →
  ∃ x', heap w' !! h = Some x' ∧ rolloverAt x' = clock w + interval x ∧
        interval x' = interval x ∧ clock w' < rolloverAt x'.
Proof.
  intros Hx Hbc Hfile Hwhen Hint H.
  apply (doRollover_inv env h x) in H
    as (i & fd & t & _ & _ & _ & _ & _ & Hcu & Hheap & _ & Hclock & _); [|done..].
  unfold computeRollover in Hcu. rewrite Hwhen in Hcu.
  replace (Z.to_nat (clock w - (clock w + interval x) + 1)) with 0%nat in Hcu by lia.
  simpl in Hcu. destruct (clock w + interval x <=? clock w) eqn:E; [lia|].
  injection Hcu as <-.
  eexists. rewrite Hheap, lookup_insert_eq. split; [done|].
  cbn [rolloverAt interval set_rolloverAt set_stream].
  unfold dst_adjusted. rewrite Hwhen. lia.
Qed.

(** X7.  [get_existing_logger] never fails.  For a name that was never
    configured it creates and registers a logger without handlers at
    level [NOTSET]; the empty name and ["root"] give the root logger.
    Every other logger is left as it was, and so are the handlers and
    the file system. *)
Theorem get_existing_logger_creates name w :
  ∃ w', get_existing_logger name w = Ok (ref_of name) w' ∧
        registered (ref_of name) w' ∧
        (registered (ref_of name) w → w' = w) ∧
        (¬ registered (ref_of name) w →
           the_logger (ref_of name) w' = new_logger name) ∧
        (∀ c, c ≠ ref_of name → the_logger c w' = the_logger c w) ∧
        heap w' = heap w ∧ fs w' = fs w.
Proof.
  unfold get_existing_logger, getLogger, ref_of, mbind, M_bind, bind, get, modify, ret.
  destruct (_ || _); [by exists w|].
  destruct (loggerDict w !! name) eqn:E; simpl.
  - exists w. rewrite E. repeat split; eauto. intros Hn. destruct Hn. eauto.
  - eexists. split; [done|]. simpl. rewrite lookup_insert_eq, E.
    repeat split; eauto.
    + intros []; done.
    + intros c Hc. destruct c as [n|]; simpl; [|done].
      rewrite lookup_insert_ne; [done|congruence].
Qed.

(** X8.  For the policy [midnight] the deadline computed from a time [t]
    lies strictly after [t] and at most one day later, and it does not
    depend on the configured interval. *)
Theorem computeRollover_midnight env x x' t :
  when x = "MIDNIGHT" → when x' = "MIDNIGHT" →
  0 <= tm_hour (localtime env t) <= 23 → 0 <= tm_min (localtime env t) <= 59 →
  0 <= tm_sec (localtime env t) <= 59 →
  t < computeRollover env x t <= t + _MIDNIGHT ∧
  computeRollover env x' t = computeRollover env x t.
Proof.
  intros Hw Hw' Hh Hm Hs. unfold computeRollover. rewrite Hw, Hw'. simpl.
  unfold _MIDNIGHT.
  destruct (24 * 60 * 60 - ((tm_hour (localtime env t) * 60 + tm_min (localtime env t)) * 60
            + tm_sec (localtime env t)) <? 0) eqn:E; [lia|].
  split; [lia|done].
Qed.

(** X10.  A rotation without pruning moves the active file: afterwards
    the rotation target holds exactly what the active file held, the
    active file is a new, empty file, and every other file keeps its
    content. *)
Theorem doRollover_archives_active_file env h x w w' cs :
  heap w !! h = Some x → backupCount x <= 0 →
  Os.isfile (baseFilename x) w = true →
  content (baseFilename x) w = Some cs →
  doRollover env h w = Ok tt w' →
  content (dfn_of x (timeTuple_of env x (clock w))) w' = Some cs ∧
  content (baseFilename x) w' = Some [] ∧
  ∀ q cs', q ≠ baseFilename x → q ≠ dfn_of x (timeTuple_of env x (clock w)) →
           content q w = Some cs' → content q w' = Some cs'.
Proof.
  intros Hx Hbc Hfile Hcs H.
  apply (doRollover_inv env h x) in H
    as (i & fd & t & Hi & Hn & Hino & _); [|done..].
  pose proof (dfn_of_neq_base x (timeTuple_of env x (clock w))) as Hdb.
  assert (∀ k nd, inodes (fs w) !! k = Some nd → inodes (fs w') !! k = Some nd) as Hkeep.
  { intros k nd Hk. rewrite Hino, lookup_insert_ne; [done|].
    intros <-. by rewrite (not_elem_of_dom_1 _ _ (is_fresh (dom (inodes (fs w))))) in Hk. }
  unfold content in *. rewrite Hi in Hcs. simpl in Hcs.
  destruct (inodes (fs w) !! i) as [nd|] eqn:Hnd; [|done].
  rewrite Hn. split; [|split].
  - rewrite lookup_insert_ne, lookup_insert_eq by done. simpl. by rewrite (Hkeep _ _ Hnd).
  - rewrite lookup_insert_eq. simpl. by rewrite Hino, lookup_insert_eq.
  - intros q cs' Hqb Hqd Hq.
    rewrite !lookup_insert_ne, !lookup_delete_ne by done.
    destruct (names (fs w) !! q) as [k|]; [|done]. simpl in *.
    destruct (inodes (fs w) !! k) as [nd'|] eqn:Hk; [|done]. by rewrite (Hkeep _ _ Hk).
Qed.

(** X11.  The first deadline of the file handler is computed from the
    modification time of the log file when the file is already there,
    and from the current time when the call creates it; for the
    interval policies it is that time plus the unit times the
    interval. *)
Theorem create_rotating_logger_first_deadline
    env name log_file log_dir lvl wh intv bc console cf w lg w' hf hs xf t0 :
  create_rotating_logger env name log_file log_dir lvl wh intv bc console cf w = Ok lg w' →
  handlers (the_logger lg w') = hf :: hs → heap w' !! hf = Some xf →
  start_time (Path.join log_dir log_file) w = Some t0 →
  rolloverAt xf = computeRollover env xf t0 ∧
  ((String.eqb (Str.upper wh) "MIDNIGHT" || Str.startswith "W" (Str.upper wh)) = false →
   ∃ unit_ sfx pat dow, when_table (Str.upper wh) = inr (unit_, sfx, pat, dow) ∧
                        rolloverAt xf = t0 + unit_ * intv).
Proof.
  intros H Hhs Hxf Ht0.
  pose proof (create_rotating_logger_Ok_state _ _ _ _ _ _ _ _ _ _ _ _ _ H)
    as (_ & _ & _ & _ & _ & _ & Hino & _ & hf' & hs' & xf' & fd & i & Hhs' & Hhf' & _ & _ & Hn
        & Hi0 & Hnew & Hroll).
  assert (hf' = hf) as -> by congruence. assert (xf' = xf) as -> by congruence.
  assert (rolloverAt xf = computeRollover env xf t0) as Hr.
  { rewrite Hroll. f_equal. unfold start_time in Ht0.
    destruct (names (fs w) !! Path.join log_dir log_file) as [i0|] eqn:E.
    - rewrite <- (Hi0 i0 eq_refl) in Ht0.
      destruct (inodes (fs w) !! i) as [nd|] eqn:E'; [|done].
      rewrite (Hino _ _ E'). simpl in *. congruence.
    - rewrite (Hnew eq_refl). simpl. congruence. }
  split; [done|]. intros Hwhen.
  apply create_rotating_logger_Ok in H
    as (hf' & xf' & fd' & _ & _ & _ & _ & Hhf'' & _ & _ & _ & _ & _ & _ & _ & _ & Hw & _ & _ & Hcon).
  assert (hf' = hf) as ->.
  { destruct console; [destruct Hcon as (? & ? & _ & _ & _ & _ & _ & _ & Hc)|]; congruence. }
  assert (xf' = xf) as -> by congruence.
  destruct Hw as (unit_ & sfx & pat & dow & Htab & Hint & _ & Hwh).
  exists unit_, sfx, pat, dow. split; [done|].
  rewrite Hr. unfold computeRollover. by rewrite Hwh, Hwhen, Hint.
Qed.

Lemma bind_Raise_inv {A B} (m : M A) (k : A → M B) w e w' :
  (m ≫= k) w = Raise e w' →
  m w = Raise e w' ∨ ∃ a w1, m w = Ok a w1 ∧ k a w1 = Raise e w'.
Proof.
  unfold mbind, M_bind, bind. destruct (m w) as [a w1|e1 w1|]; intros H.
  - right. by exists a, w1.
  - left. by injection H as -> ->.
  - discriminate H.
Qed.

Lemma fs_only_Raise {A} (m : M A) w e w' :
  fs_only m → m w = Raise e w' → ∃ f, w' = set_fs f w.
Proof. intros Hm H. specialize (Hm w). by rewrite H in Hm. Qed.

Lemma TimedRotatingFileHandler_init_Raise env filename wh intv bc w e w' :
  TimedRotatingFileHandler_init env filename wh intv bc w = Raise e w' →
  ∃ f, w' = set_fs f w.
Proof.
  unfold TimedRotatingFileHandler_init. intros H.
  apply bind_Raise_inv in H as [H|(fd & w1 & Ho & H)].
  { by apply (fs_only_Raise _ _ _ _ (fs_only_open_append _)) in H. }
  apply (fs_only_Ok _ _ _ _ (fs_only_open_append _)) in Ho as [f ->].
  destruct (when_table (Str.upper wh)) as [e'|[[[base sfx] pat] dow]].
  { injection H as _ <-. by eexists. }
  apply bind_Raise_inv in H as [H|(w1 & w1' & Hg & H)]; [done|]. injection Hg as <- <-.
  apply bind_Raise_inv in H as [H|(t & w1 & Ht & H)].
  - destruct (Os.exists_ filename _); [|done].
    unfold Os.stat_mtime in H. destruct (names _ !! filename); [done|].
    injection H as _ <-. by eexists.
  - apply bind_Raise_inv in H as [H|(? & ? & _ & H)]; done.
Qed.

Lemma ensure_dir_Raise log_dir w e w' :
  (if negb (Os.exists_ log_dir w)
   then Os.makedirs log_dir ≫= λ _ : (),
        modify (λ w0, set_stdout (stdout w0 ++ ["Log directory created: " +:+ log_dir]) w0)
   else ret ()) w = Raise e w' →
  ∃ ds, w' = fs_dirs ds w.
Proof.
  destruct (negb _); [|done]. intros H.
  apply bind_Raise_inv in H as [H|(? & ? & _ & H)]; [|done].
  pose proof (dirs_only_makedirs log_dir w) as Hd. by rewrite H in Hd.
Qed.

(** X12.  When [create_rotating_logger] raises (the directory cannot be
    made, the format or [when] is rejected, the file cannot be opened),
    the logger of the name is left with the new level and with no
    handler at all, its previous handlers included, and no handler
    object has been created or changed. *)
Theorem failed_construction_leaves_no_handlers
    env name log_file log_dir lvl wh intv bc console cf w e w' :
  create_rotating_logger env name log_file log_dir lvl wh intv bc console cf w = Raise e w' →
  handlers (the_logger (ref_of name) w') = [] ∧
  l_level (the_logger (ref_of name) w') = lvl ∧
  heap w' = heap w.
Proof.
  intros H. unfold create_rotating_logger in H.
  apply bind_Raise_inv in H as [H|(c & w1 & Hget & H)].
  { unfold getLogger, mbind, M_bind, bind, get, modify, ret in H.
    destruct (_ || _); [done|]. by destruct (loggerDict w !! name). }
  apply getLogger_inv in Hget as (-> & Hreg & Hw1).
  set (c := ref_of name) in *.
  assert (heap w1 = heap w) as Hh1.
  { destruct Hw1 as [->|[-> _]]; [done|]. by rewrite heap_put_logger. }
  clear Hw1.
  apply bind_Raise_inv in H as [H|([] & w2 & H2 & H)]; [done|].
  unfold Logger_setLevel, modify in H2. injection H2 as <-.
  apply bind_Raise_inv in H as [H|(w2' & w2'' & H2 & H)]; [done|]. injection H2 as <- <-.
  rewrite the_logger_put in H. cbn [handlers] in H.
  apply bind_Raise_inv in H as [H|([] & w3 & H3 & H)].
  { by case_bool_decide. }
  assert (∃ L, w3 = put_logger c L w1 ∧ handlers L = [] ∧ l_level L = lvl) as (L & -> & HL & HLl).
  { case_bool_decide as Hh.
    - unfold set_handlers, modify in H3. injection H3 as <-.
      rewrite the_logger_put, put_logger_put. by eexists.
    - injection H3 as <-. eexists; split; [done|]. split; [|done].
      simpl. by destruct (decide (handlers (the_logger c w1) = [])). }
  clear H3.
  assert (∀ W, loggerDict W = loggerDict (put_logger c L w1) →
               root W = root (put_logger c L w1) → heap W = heap w1 →
               handlers (the_logger c W) = [] ∧ l_level (the_logger c W) = lvl ∧
               heap W = heap w) as Hdone.
  { intros W Hd Hr Hh. rewrite (the_logger_frame c _ _ Hd Hr), the_logger_put. by rewrite Hh. }
  apply bind_Raise_inv in H as [H|(w3' & w3'' & H3' & H)]; [done|]. injection H3' as <- <-.
  apply bind_Raise_inv in H as [H|([] & w4 & H4 & H)].
  { apply ensure_dir_Raise in H as [ds ->]. apply Hdone; try done; simpl; by rewrite ?heap_put_logger. }
  apply ensure_dir_Ok in H4 as (ds & out & ->).
  apply bind_Raise_inv in H as [H|(fmt & w5 & H5 & H)].
  { unfold Formatter in H. destruct (fmt_valid env _); [done|]. injection H as _ <-.
    apply Hdone; try done; simpl; by rewrite ?heap_put_logger. }
  unfold Formatter in H5. destruct (fmt_valid env _); [|done]. injection H5 as <- <-.
  apply bind_Raise_inv in H as [H|(hf & w6 & H6 & H)].
  { apply TimedRotatingFileHandler_init_Raise in H as [f ->].
    apply Hdone; try done; simpl; by rewrite ?heap_put_logger. }
  exfalso.
  apply TimedRotatingFileHandler_init_Ok in H6
    as (f' & x & fd & Hhf & -> & _).
  unfold Handler_setLevel, Handler_setFormatter in H.
  erewrite bind_step in H by (apply update_handler_Ok; simpl; apply lookup_insert_eq).
  erewrite bind_step in H by (apply update_handler_Ok; simpl; apply lookup_insert_eq).
  erewrite bind_step in H by (apply update_handler_Ok; simpl; apply lookup_insert_eq).
  simpl in H.
  match type of H with (_ ≫= _) ?W0 = _ => set (W := W0) in * end.
  assert (the_logger c W = L) as HLW.
  { rewrite <- (the_logger_put c L w1). by apply the_logger_frame. }
  assert (is_Some (heap W !! hf)) as HhfW.
  { subst W. simpl. rewrite lookup_insert_eq. by eexists. }
  clearbody W.
  rewrite (bind_step _ _ _ _ _ (addHandler_new c hf W ltac:(rewrite HLW, HL; apply not_elem_of_nil))) in H.
  rewrite HLW, HL in H. cbn [app] in H.
  set (L1 := mk_logger (l_name L) (l_level L) [hf] (propagate L) (disabled L)) in *.
  apply bind_Raise_inv in H as [H|([] & w7 & _ & H)]; [|done].
  destruct console; [|done].
  apply bind_Raise_inv in H as [H|(hc & w8 & Hc & H)]; [done|].
  rewrite StreamHandler_init_eq in Hc. injection Hc as <- <-.
  rewrite heap_put_logger in H.
  set (hc := fresh (dom (heap W))) in *.
  assert (heap W !! hc = None) as HhcW by apply fresh_heap_None.
  assert (hc ≠ hf) as Hne by (intros Heq; rewrite <- Heq, HhcW in HhfW; by destruct HhfW).
  erewrite bind_step in H by (apply update_handler_Ok; simpl; apply lookup_insert_eq).
  erewrite bind_step in H by (apply update_handler_Ok; simpl; apply lookup_insert_eq).
  match type of H with addHandler _ _ ?W0 = _ => set (W1 := W0) in * end.
  assert (the_logger c W1 = L1) as HL1.
  { rewrite <- (the_logger_put c L1 W). by apply the_logger_frame. }
  rewrite addHandler_new in H
    by (rewrite HL1; simpl; by intros ->%list_elem_of_singleton).
  done.
Qed.

Lemma nat_of_digit n : nat_of_ascii (Time.digit n) = (48 + Z.to_nat (n mod 10))%nat.
Proof.
  assert (0 <= n mod 10 < 10) by (apply Z.mod_pos_bound; lia).
  unfold Time.digit. apply nat_ascii_embedding. lia.
Qed.

Lemma is_digit_digit n : Re.is_digit (Time.digit n) = true.
Proof.
  assert (0 <= n mod 10 < 10) by (apply Z.mod_pos_bound; lia).
  unfold Re.is_digit. rewrite nat_of_digit.
  apply andb_true_iff. split; apply Nat.leb_le; lia.
Qed.

Lemma match_seconds t :
  Re.match_ (date_atoms ++ Re.lit "_" ++ Re.d 2 ++ Re.lit "-" ++ Re.d 2 ++ Re.lit "-" ++ Re.d 2)
            (fixed_width_stamp t) = true.
Proof.
  unfold fixed_width_stamp, four, two.
  cbn -[Time.digit Re.is_digit]. by rewrite !is_digit_digit.
Qed.

Lemma match_minutes t :
  Re.match_ (date_atoms ++ Re.lit "_" ++ Re.d 2 ++ Re.lit "-" ++ Re.d 2)
            (fixed_width_stamp t) = false.
Proof.
  unfold fixed_width_stamp, four, two.
  cbn -[Time.digit Re.is_digit]. by rewrite !is_digit_digit.
Qed.

Lemma match_hours t :
  Re.match_ (date_atoms ++ Re.lit "_" ++ Re.d 2) (fixed_width_stamp t) = false.
Proof.
  unfold fixed_width_stamp, four, two.
  cbn -[Time.digit Re.is_digit]. by rewrite !is_digit_digit.
Qed.

Lemma match_date t : Re.match_ date_atoms (fixed_width_stamp t) = false.
Proof.
  unfold fixed_width_stamp, four, two.
  cbn -[Time.digit Re.is_digit]. by rewrite !is_digit_digit.
Qed.

(** X13.  The pattern with which the file handler recognises its old
    archives matches the names it gives to new archives exactly when the
    policy is [S]: for every other policy the suffix the module sets
    and the pattern the handler keeps disagree, and pruning finds
    nothing. *)
Theorem archive_stamp_matches_only_seconds_pattern
    env name log_file log_dir lvl wh intv bc console cf w lg w' hf hs xf t :
  create_rotating_logger env name log_file log_dir lvl wh intv bc console cf w = Ok lg w' →
  handlers (the_logger lg w') = hf :: hs → heap w' !! hf = Some xf →
  tm_valid t →
  Re.match_ (extMatch xf) (Time.strftime (suffix xf) t) = String.eqb (Str.upper wh) "S".
Proof.
  intros H Hhs Hxf Ht.
  apply create_rotating_logger_Ok in H
    as (hf' & xf' & fd' & _ & _ & _ & _ & Hhf' & _ & _ & _ & Hsfx & _ & _ & _ & _ & Hw & _ & _ & Hcon).
  assert (hf' = hf) as ->.
  { destruct console; [destruct Hcon as (? & ? & _ & _ & _ & _ & _ & _ & Hc)|]; congruence. }
  assert (xf' = xf) as -> by congruence.
  destruct Hw as (unit_ & sfx & pat & dow & Htab & _ & Hpat & _).
  rewrite Hsfx, Hpat, strftime_stamp by done.
  unfold when_table in Htab.
  destruct (Str.upper wh =? "S")%string eqn:ES.
  { injection Htab as _ _ <- _. apply match_seconds. }
  destruct (Str.upper wh =? "M")%string.
  { injection Htab as _ _ <- _. apply match_minutes. }
  destruct (Str.upper wh =? "H")%string.
  { injection Htab as _ _ <- _. apply match_hours. }
  destruct (_ || _).
  { injection Htab as _ _ <- _. apply match_date. }
  destruct (Str.startswith "W" (Str.upper wh)); [|done].
  destruct (negb _); [done|].
  destruct (String.get 1 (Str.upper wh)); [|done].
  destruct (_ || _); [done|].
  injection Htab as _ _ <- _. apply match_date.
Qed.


















Lemma FileHandler_emit_line env h x fd i nd r msg w :
  heap w !! h = Some x → h_class x = TimedRotatingFileHandler →
  stream x = Some fd → fds (fs w) !! fd = Some i → inodes (fs w) !! i = Some nd →
  fmt_format env (default "%(message)s" (formatter x)) r = Some msg →
  Z.of_nat (String.length (msg +:+ terminator)) <= disk_free (fs w) →
  FileHandler_emit env h r w =
  Ok tt (set_fs (mk_fs (dirs (fs w)) (names (fs w))
                       (<[i := mk_inode (chunks nd ++ [msg +:+ terminator]) (clock w)]>
                          (inodes (fs w)))
                       (fds (fs w))
                       (disk_free (fs w) - Z.of_nat (String.length (msg +:+ terminator)))) w).
Proof.
  intros Hx Hc Hs Hfd Hi Hf Hfree.
  unfold FileHandler_emit, StreamHandler_emit, format, handleError, try_except, mbind, M_bind,
    bind, the_handler, get, modify, ret, raise.
  rewrite Hx, Hs. simpl. rewrite Hx, Hs. simpl. rewrite Hx, Hf, Hc, Hs.
  unfold Os.write. rewrite Hfd, Hi. simpl.
  destruct (disk_free (fs w) <? _) eqn:E'; [lia|]. done.
Qed.

(** X15.  A record that arrives at or after the deadline is written
    after the rotation, not before: when the rotation returns, the
    record is handled without error, the active file holds the record's
    line and nothing else, and what the active file held before is in
    the rotation target. *)
Theorem emit_after_deadline_rotates_first env h x r msg cs w w1 :
  heap w !! h = Some x → h_class x = TimedRotatingFileHandler →
  backupCount x <= 0 → Os.isfile (baseFilename x) w = true →
  rolloverAt x <= clock w →
  content (baseFilename x) w = Some cs →
  doRollover env h w = Ok tt w1 →
  fmt_format env (default "%(message)s" (formatter x)) r = Some msg →
  Z.of_nat (String.length (msg +:+ terminator)) <= disk_free (fs w) →
  ∃ w', Handler_handle env h r w = Ok tt w' ∧
        content (baseFilename x) w' = Some [msg +:+ terminator] ∧
        content (dfn_of x (timeTuple_of env x (clock w))) w' = Some cs.
Proof.
  intros Hx Hc Hbc Hfile Ht Hcs Hroll Hf Hfree.
  pose proof (doRollover_inv env h x w w1 Hx Hbc Hfile Hroll)
    as (i & fd & t & Hi & Hn & Hino & _ & Hdf & _ & Hheap & Hfd & Hclock & _).
  set (x1 := set_rolloverAt (dst_adjusted env x (clock w) t) (set_stream (Some fd) x)) in *.
  set (j := fresh (dom (inodes (fs w)))) in *.
  assert (FileHandler_emit env h r w1 = Ok tt
    (set_fs (mk_fs (dirs (fs w1)) (names (fs w1))
                   (<[j := mk_inode ([] ++ [msg +:+ terminator]) (clock w1)]> (inodes (fs w1)))
                   (fds (fs w1))
                   (disk_free (fs w1) - Z.of_nat (String.length (msg +:+ terminator)))) w1))
    as Hemit.
  { apply (FileHandler_emit_line env h x1 fd j (mk_inode [] (clock w))); try done.
    - by rewrite Hheap, lookup_insert_eq.
    - by rewrite Hino, lookup_insert_eq.
    - by rewrite Hdf. }
  eexists. split.
  { unfold Handler_handle. erewrite bind_step by (unfold the_handler; by rewrite Hx).
    rewrite Hc. unfold BaseRotatingHandler_emit, try_except.
    erewrite bind_step; cycle 1.
    { unfold shouldRollover, mbind, M_bind, bind, the_handler, get, ret. rewrite Hx.
      destruct (clock w >=? rolloverAt x) eqn:E; [|lia].
      rewrite Hfile. by rewrite andb_false_r. }
    cbn iota. erewrite bind_step by exact Hroll. rewrite Hemit. done. }
  pose proof (dfn_of_neq_base x (timeTuple_of env x (clock w))) as Hdb.
  unfold content in *. cbn [fs set_fs names inodes]. rewrite Hn. split.
  - rewrite lookup_insert_eq. simpl. by rewrite lookup_insert_eq.
  - rewrite lookup_insert_ne, lookup_insert_eq by done. simpl.
    rewrite Hi in Hcs. simpl in Hcs.
    destruct (inodes (fs w) !! i) as [nd|] eqn:Hnd; [|done].
    assert (i ≠ j) as Hij.
    { intros ->. unfold j in Hnd.
      by rewrite (not_elem_of_dom_1 _ _ (is_fresh (dom (inodes (fs w))))) in Hnd. }
    rewrite Hino, !lookup_insert_ne by done. by rewrite Hnd.
Qed.

Lemma upper_char_idem c : Str.upper_char (Str.upper_char c) = Str.upper_char c.
Proof.
  unfold Str.upper_char at 2.
  destruct ((97 <=? nat_of_ascii c)%nat && (nat_of_ascii c <=? 122)%nat) eqn:E.
  - apply andb_true_iff in E as [E1%Nat.leb_le E2%Nat.leb_le].
    assert (Str.upper_char c = ascii_of_nat (nat_of_ascii c - 32)) as ->.
    { unfold Str.upper_char. cbn zeta.
      by rewrite (proj2 (Nat.leb_le _ _) E1), (proj2 (Nat.leb_le _ _) E2). }
    unfold Str.upper_char. cbn zeta. rewrite nat_ascii_embedding by lia.
    destruct (97 <=? nat_of_ascii c - 32)%nat eqn:E'; [|reflexivity].
    apply Nat.leb_le in E'. lia.
  - unfold Str.upper_char. by rewrite E.
Qed.

Lemma upper_idem s : Str.upper (Str.upper s) = Str.upper s.
Proof.
  induction s as [|c s IH]; [done|].
  cbn [Str.upper]. by rewrite upper_char_idem, IH.
Qed.

(** X16.  [when] is read without regard to case: a call with [when]
    and the call with [when] in upper case do the same, whatever the
    other arguments and the state (the default [midnight] is the policy
    [MIDNIGHT]). *)
Theorem create_rotating_logger_when_ignores_case
    env name log_file log_dir lvl wh intv bc console cf w :
  create_rotating_logger env name log_file log_dir lvl wh intv bc console cf w =
  create_rotating_logger env name log_file log_dir lvl (Str.upper wh) intv bc console cf w.
Proof.
  unfold create_rotating_logger, TimedRotatingFileHandler_init.
  by rewrite upper_idem.
Qed.

Lemma same_registry_refl w : same_registry w w.
Proof. done. Qed.

Lemma same_registry_trans w1 w2 w3 :
  same_registry w1 w2 → same_registry w2 w3 → same_registry w1 w3.
Proof. intros (? & ? & ?) (? & ? & ?). repeat split; congruence. Qed.

Lemma keeps_ret {A} h (a : A) : keeps h (ret a).
Proof. by intros w _. Qed.

Lemma keeps_raise {A} h e : keeps h (@raise A e).
Proof. by intros w _. Qed.

Lemma keeps_get h : keeps h get.
Proof. by intros w _. Qed.

Lemma keeps_bind {A B} h (m : M A) (k : A → M B) :
  keeps h m → (∀ a, keeps h (k a)) → keeps h (m ≫= k).
Proof.
  intros Hm Hk w Hh. unfold mbind, M_bind, bind. specialize (Hm w Hh).
  destruct (m w) as [a w1|e w1|]; [|done..].
  assert (h ∈ dom (heap w1)) as Hh1 by (destruct Hm as [-> _]; done).
  specialize (Hk a w1 Hh1).
  destruct (k a w1) as [b w2|e w2|]; [| |done]; by eapply same_registry_trans.
Qed.

Lemma keeps_try {A} h (m : M A) (k : exn → M A) :
  keeps h m → (∀ e, keeps h (k e)) → keeps h (try_except m k).
Proof.
  intros Hm Hk w Hh. unfold try_except. specialize (Hm w Hh).
  destruct (m w) as [a w1|e w1|]; [done| |done].
  assert (h ∈ dom (heap w1)) as Hh1 by (destruct Hm as [-> _]; done).
  specialize (Hk e w1 Hh1).
  destruct (k e w1) as [b w2|e' w2|]; [| |done]; by eapply same_registry_trans.
Qed.

Lemma keeps_fs_only {A} h (m : M A) : fs_only m → keeps h m.
Proof.
  intros Hm w _. specialize (Hm w).
  destruct (m w) as [a w1|e w1|]; [| |done]; by destruct Hm as [f ->].
Qed.

Lemma keeps_the_handler h h' : keeps h (the_handler h').
Proof. intros w _. unfold the_handler. by destruct (heap w !! h'). Qed.

Lemma keeps_store h x : keeps h (store h x).
Proof.
  intros w Hh. unfold store, modify. repeat split. cbn [heap set_heap].
  rewrite dom_insert_L. apply subseteq_union_1_L. by apply singleton_subseteq_l.
Qed.

Lemma keeps_handleError h r : keeps h (handleError r).
Proof. by intros w _. Qed.

Lemma fs_only_write fd s : fs_only (Os.write fd s).
Proof.
  intros w. unfold Os.write. destruct (fds (fs w) !! fd); [|exists (fs w); apply set_fs_id].
  destruct (_ <? _); [exists (fs w); apply set_fs_id|by eexists].
Qed.

Lemma keeps_StreamHandler_emit env h r : keeps h (StreamHandler_emit env h r).
Proof.
  unfold StreamHandler_emit. apply keeps_try; [|intros; apply keeps_handleError].
  apply keeps_bind; [apply keeps_the_handler|]. intros x.
  apply keeps_bind.
  { unfold format. destruct (fmt_format _ _ _); [apply keeps_ret|apply keeps_raise]. }
  intros msg. destruct (h_class x); [|by intros w _].
  destruct (stream x); [|apply keeps_raise].
  apply keeps_fs_only, fs_only_write.
Qed.

Lemma keeps_FileHandler_emit env h r : keeps h (FileHandler_emit env h r).
Proof.
  unfold FileHandler_emit. apply keeps_bind; [apply keeps_the_handler|]. intros x.
  apply keeps_bind.
  { destruct (stream x); [apply keeps_ret|].
    apply keeps_bind; [apply keeps_fs_only, fs_only_open_append|].
    intros fd. apply keeps_store. }
  intros []. apply keeps_bind; [apply keeps_the_handler|]. intros x'.
  destruct (stream x'); [apply keeps_StreamHandler_emit|apply keeps_ret].
Qed.

Lemma keeps_shouldRollover env h r : keeps h (shouldRollover env h r).
Proof.
  unfold shouldRollover. apply keeps_bind; [apply keeps_the_handler|]. intros x.
  apply keeps_bind; [apply keeps_get|]. intros w.
  destruct (_ >=? _); [|apply keeps_ret].
  destruct (_ && _); [|apply keeps_ret].
  apply keeps_bind; [apply keeps_store|]. intros []. apply keeps_ret.
Qed.

Lemma keeps_doRollover env h : keeps h (doRollover env h).
Proof.
  unfold doRollover. apply keeps_bind; [apply keeps_the_handler|]. intros x.
  apply keeps_bind.
  { destruct (stream x); [|apply keeps_ret].
    apply keeps_bind; [apply keeps_fs_only, fs_only_close|]. intros []. apply keeps_store. }
  intros []. apply keeps_bind; [apply keeps_the_handler|]. intros x'.
  apply keeps_bind; [apply keeps_get|]. intros w.
  apply keeps_bind.
  { destruct (Os.exists_ _ _); [apply keeps_fs_only, fs_only_remove|apply keeps_ret]. }
  intros []. apply keeps_bind; [apply keeps_fs_only, fs_only_rotate|].
  intros []. apply keeps_bind.
  { destruct (_ >? _); [|apply keeps_ret]. apply keeps_fs_only.
    apply fs_only_bind; [apply fs_only_getFilesToDelete|intros; apply fs_only_remove_all]. }
  intros []. apply keeps_bind; [apply keeps_fs_only, fs_only_open_append|].
  intros fd. apply keeps_bind; [apply keeps_store|].
  intros []. apply keeps_bind; [apply keeps_the_handler|]. intros x''.
  apply keeps_bind.
  { unfold catch_up_loop. destruct (catch_up _ _ _ _); [apply keeps_ret|by intros ? _]. }
  intros t. apply keeps_store.
Qed.

Lemma keeps_Handler_handle env h r : keeps h (Handler_handle env h r).
Proof.
  unfold Handler_handle. apply keeps_bind; [apply keeps_the_handler|]. intros x.
  destruct (h_class x); [|apply keeps_StreamHandler_emit].
  unfold BaseRotatingHandler_emit. apply keeps_try; [|intros; apply keeps_handleError].
  apply keeps_bind; [apply keeps_shouldRollover|]. intros b.
  apply keeps_bind; [|intros; apply keeps_FileHandler_emit].
  destruct b; [apply keeps_doRollover|apply keeps_ret].
Qed.

Lemma StreamHandler_emit_never_raises env h r w : never_raises (StreamHandler_emit env h r) w.
Proof.
  unfold never_raises, StreamHandler_emit, try_except.
  match goal with
  | |- context [match ?m w with Ok _ _ => _ | Raise _ _ => _ | Diverge => _ end] =>
      by destruct (m w)
  end.
Qed.

Lemma Handler_handle_never_raises env h r w :
  h ∈ dom (heap w) → never_raises (Handler_handle env h r) w.
Proof.
  intros [x Hx]%elem_of_dom. unfold never_raises, Handler_handle.
  erewrite bind_step by (unfold the_handler; by rewrite Hx).
  destruct (h_class x).
  - destruct (BaseRotatingHandler_emit env h r w) eqn:E; [done| |done].
    by apply BaseRotatingHandler_emit_never_raises in E.
  - apply StreamHandler_emit_never_raises.
Qed.

Lemma call_all_quiet env hs r w :
  (∀ h, h ∈ hs → h ∈ dom (heap w)) → quiet (call_all env hs r) w.
Proof.
  revert w. induction hs as [|h hs IH]; intros w Hhs; [done|].
  unfold quiet. cbn [call_all].
  assert (h ∈ dom (heap w)) as Hh by (apply Hhs; constructor).
  destruct (proj1 (elem_of_dom _ _) Hh) as [x Hx].
  unfold mbind at 1, M_bind at 1, bind at 1.
  erewrite bind_step by (unfold the_handler; by rewrite Hx).
  assert (match (if levelno r >=? level x then Handler_handle env h r else ret ()) w with
          | Ok _ w1 => same_registry w w1 | Raise _ _ => False | Diverge => True end) as H1.
  { destruct (_ >=? _); [|done].
    pose proof (keeps_Handler_handle env h r w Hh) as Hk.
    pose proof (Handler_handle_never_raises env h r w Hh) as Hn. unfold never_raises in Hn.
    by destruct (Handler_handle env h r w). }
  destruct ((if levelno r >=? level x then Handler_handle env h r else ret ()) w)
    as [[] w1|e w1|]; [|done..].
  assert (∀ h', h' ∈ hs → h' ∈ dom (heap w1)) as Hhs1.
  { intros h' Hh'. destruct H1 as [-> _]. apply Hhs. by constructor. }
  specialize (IH w1 Hhs1). unfold quiet in IH.
  destruct (call_all env hs r w1) as [[] w2|e w2|]; [|done..].
  by eapply same_registry_trans.
Qed.

Lemma the_logger_same w w' c :
  same_registry w w' → the_logger c w' = the_logger c w.
Proof. intros (_ & Hd & Hr). destruct c; simpl; congruence. Qed.

Lemma callHandlers_loop_quiet env cs r found w :
  (∀ c h, c ∈ cs → h ∈ handlers (the_logger c w) → h ∈ dom (heap w)) →
  quiet (callHandlers_loop env cs r found) w.
Proof.
  revert w found. induction cs as [|c cs IH]; intros w found Hcs; [done|].
  unfold quiet. cbn [callHandlers_loop].
  unfold mbind at 1, M_bind at 1, bind at 1, get at 1.
  pose proof (call_all_quiet env (handlers (the_logger c w)) r w) as H1.
  unfold quiet in H1. unfold mbind, M_bind, bind at 1.
  destruct (call_all env (handlers (the_logger c w)) r w) as [[] w1|e w1|].
  2:{ apply H1. intros h Hh. apply (Hcs c); [constructor|done]. }
  2:{ done. }
  assert (same_registry w w1) as Hs.
  { apply H1. intros h Hh. apply (Hcs c); [constructor|done]. }
  destruct (propagate (the_logger c w)); [|done].
  assert (∀ c' h, c' ∈ cs → h ∈ handlers (the_logger c' w1) → h ∈ dom (heap w1)) as Hcs1.
  { intros c' h Hc' Hh. rewrite (the_logger_same _ _ _ Hs) in Hh.
    destruct Hs as [-> _]. apply (Hcs c'); [by constructor|done]. }
  specialize (IH w1 (found + length (handlers (the_logger c w)))%nat Hcs1).
  unfold quiet in IH.
  destruct (callHandlers_loop env cs r _ w1) as [n w2|e w2|]; [|done..].
  by eapply same_registry_trans.
Qed.

(** X17.  Logging through a logger never raises.  When the handlers
    installed on the logger and on its ancestors are live handler
    objects, [logger.log(level, msg)] returns or, with a rotation that
    cannot finish, does not end; no failure of a handler (a full disk,
    a file that cannot be rotated or reopened, a format error) reaches
    the caller, and the call leaves the loggers, their levels and their
    handler lists as they are. *)
Theorem log_never_raises env c lvl msg w :
  Forall (λ c', Forall (λ h, is_Some (heap w !! h)) (handlers (the_logger c' w)))
         (ancestry c w) →
  match log env c lvl msg w with
  | Ok _ w' => (∀ c', the_logger c' w' = the_logger c' w) ∧ dom (heap w') = dom (heap w)
  | Raise _ _ => False
  | Diverge => True
  end.
Proof.
  intros Hlive.
  assert (∀ c' h, c' ∈ ancestry c w → h ∈ handlers (the_logger c' w) → h ∈ dom (heap w))
    as Hdom.
  { intros c' h Hc' Hh. apply elem_of_dom.
    rewrite Forall_forall in Hlive. specialize (Hlive c' Hc').
    rewrite Forall_forall in Hlive. by apply Hlive. }
  clear Hlive. unfold log, mbind, M_bind, bind, get.
  destruct (isEnabledFor c lvl w); [|done].
  destruct (negb _); [|done].
  unfold callHandlers, mbind, M_bind, bind, get.
  set (r := mk_record _ _ _).
  pose proof (callHandlers_loop_quiet env (ancestry c w) r 0 w) as H.
  unfold quiet in H.
  destruct (callHandlers_loop env (ancestry c w) r 0 w) as [n w1|e w1|].
  2:{ by apply H. }
  2:{ done. }
  assert (same_registry w w1) as Hs.
  { by apply H. }
  assert ((∀ c', the_logger c' w1 = the_logger c' w) ∧ dom (heap w1) = dom (heap w)) as Hres.
  { split; [intros c'; by apply the_logger_same|by destruct Hs]. }
  destruct (n =? 0)%nat; [|done].
  destruct (_ >=? _); [|done].
  unfold lastResort_handle, try_except, handleError, modify, raise.
  destruct (fmt_format env _ r); done.
Qed.

(** ** Witnesses of the further properties *)

Lemma create_rotating_logger_directory_witness :
  Os.exists_ "logs" configured_once = true ∧
  stdout configured_once =
    (stdout (set_clock T0 world0) ++
     (if Os.exists_ "logs" (set_clock T0 world0) then []
      else ["Log directory created: " +:+ "logs"]))%list ∧
  stderr configured_once = stderr (set_clock T0 world0).
Proof.
  apply (create_rotating_logger_directory utc_env "t" "a.log" "logs" INFO "midnight" 1 7
           true None (set_clock T0 world0) (Some "t") configured_once).
  vm_compute. reflexivity.
Defined.


Lemma create_rotating_logger_other_loggers_witness :
  the_logger None configured_once = the_logger None (set_clock T0 world0).
Proof.
  apply (create_rotating_logger_other_loggers utc_env "t" "a.log" "logs" INFO "midnight" 1 7
           true None (set_clock T0 world0) (Some "t") configured_once None).
  - vm_compute. reflexivity.
  - vm_compute. discriminate.
Defined.

Lemma emit_appends_one_line_witness :
  Handler_handle utc_env 0%nat (mk_record "t" INFO "hello") unlimited_world =
  Ok tt (set_fs (mk_fs (dirs (fs unlimited_world)) (names (fs unlimited_world))
                       (<[0%nat := mk_inode ([] ++ ["t: hello" +:+ terminator]) T0]>
                          (inodes (fs unlimited_world)))
                       (fds (fs unlimited_world))
                       (disk_free (fs unlimited_world) -
                        Z.of_nat (String.length ("t: hello" +:+ terminator))))
                unlimited_world).
Proof.
  eapply (emit_appends_one_line utc_env 0%nat _ 0%nat 0%nat (mk_inode [] T0)
            (mk_record "t" INFO "hello") "t: hello" unlimited_world).
  - vm_compute. reflexivity.
  - reflexivity.
  - reflexivity.
  - vm_compute. reflexivity.
  - vm_compute. reflexivity.
  - vm_compute. reflexivity.
  - reflexivity.
  - vm_compute. discriminate.
Defined.

Lemma console_handler_writes_to_stderr_witness :
  ∃ x,
  Handler_handle utc_env 1%nat (mk_record "t" INFO "hello") configured_once =
  Ok tt (set_stderr
           (stderr configured_once ++
            [match fmt_format utc_env (default "%(message)s" (formatter x))
                     (mk_record "t" INFO "hello") with
             | Some msg => msg +:+ terminator
             | None => "--- Logging error ---"
             end]) configured_once).
Proof.
  eexists.
  eapply (console_handler_writes_to_stderr utc_env 1%nat _ (mk_record "t" INFO "hello")
            configured_once).
  - vm_compute. reflexivity.
  - reflexivity.
Defined.

Lemma doRollover_next_deadline_witness :
  ∃ x, heap due_world !! 0%nat = Some x ∧
  ∃ x', heap rotated_world !! 0%nat = Some x' ∧
        rolloverAt x' = clock due_world + interval x ∧
        interval x' = interval x ∧ clock rotated_world < rolloverAt x'.
Proof.
  eexists. split; [vm_compute; reflexivity|].
  eapply (doRollover_next_deadline utc_env 0%nat _ due_world rotated_world).
  - vm_compute. reflexivity.
  - vm_compute. discriminate.
  - vm_compute. reflexivity.
  - vm_compute. reflexivity.
  - vm_compute. reflexivity.
  - vm_compute. reflexivity.
Defined.

Lemma computeRollover_midnight_witness :
  T0 < computeRollover utc_env (midnight_handler 1) T0 <= T0 + _MIDNIGHT ∧
  computeRollover utc_env (midnight_handler 7) T0 =
  computeRollover utc_env (midnight_handler 1) T0.
Proof.
  apply (computeRollover_midnight utc_env (midnight_handler 1) (midnight_handler 7) T0).
  - reflexivity.
  - reflexivity.
  - vm_compute. split; discriminate.
  - vm_compute. split; discriminate.
  - vm_compute. split; discriminate.
Defined.

Lemma doRollover_nonpositive_interval_witness :
  ∃ x, heap negative_interval_world !! 0%nat = Some x ∧ interval x = -1 ∧
       doRollover utc_env 0%nat negative_interval_world ≠ Ok tt negative_interval_world.
Proof.
  eexists. split; [vm_compute; reflexivity|]. split; [reflexivity|].
  eapply (doRollover_nonpositive_interval utc_env 0%nat _ negative_interval_world
            negative_interval_world).
  - vm_compute. reflexivity.
  - vm_compute. reflexivity.
  - vm_compute. discriminate.
Defined.

Lemma doRollover_archives_active_file_witness :
  ∃ x, heap due_world !! 0%nat = Some x ∧
  (content (dfn_of x (timeTuple_of utc_env x (clock due_world))) rotated_world
     = Some ["t: hello" +:+ terminator] ∧
   content (baseFilename x) rotated_world = Some [] ∧
   ∀ q cs', q ≠ baseFilename x →
            q ≠ dfn_of x (timeTuple_of utc_env x (clock due_world)) →
            content q due_world = Some cs' → content q rotated_world = Some cs').
Proof.
  eexists. split; [vm_compute; reflexivity|].
  eapply (doRollover_archives_active_file utc_env 0%nat _ due_world rotated_world).
  - vm_compute. reflexivity.
  - vm_compute. discriminate.
  - vm_compute. reflexivity.
  - vm_compute. reflexivity.
  - vm_compute. reflexivity.
Defined.

Lemma create_rotating_logger_first_deadline_witness :
  ∃ xf, heap unlimited_world !! 0%nat = Some xf ∧
  (rolloverAt xf = computeRollover utc_env xf T0 ∧
   ((String.eqb (Str.upper "S") "MIDNIGHT" || Str.startswith "W" (Str.upper "S")) = false →
    ∃ unit_ sfx pat dow, when_table (Str.upper "S") = inr (unit_, sfx, pat, dow) ∧
                         rolloverAt xf = T0 + unit_ * 1)).
Proof.
  eexists. split; [vm_compute; reflexivity|].
  eapply (create_rotating_logger_first_deadline utc_env "t" "a.log" "logs" INFO "S" 1 0
            false None (set_clock T0 world0) (Some "t") unlimited_world 0%nat []).
  - vm_compute. reflexivity.
  - vm_compute. reflexivity.
  - vm_compute. reflexivity.
  - vm_compute. reflexivity.
Defined.

Lemma failed_construction_leaves_no_handlers_witness :
  handlers (the_logger (ref_of "t") failed_reconfiguration) = [] ∧
  l_level (the_logger (ref_of "t") failed_reconfiguration) = DEBUG ∧
  heap failed_reconfiguration = heap configured_once.
Proof.
  apply (failed_construction_leaves_no_handlers utc_env "t" "b.log" "logs" DEBUG "fortnightly"
           1 3 false None configured_once
           (ValueError "Invalid rollover interval specified") failed_reconfiguration).
  vm_compute. reflexivity.
Defined.

Lemma archive_stamp_matches_only_seconds_pattern_witness :
  ∃ xf, heap configured_once !! 0%nat = Some xf ∧
        Re.match_ (extMatch xf) (Time.strftime (suffix xf) (Time.gmtime T0)) =
        String.eqb (Str.upper "midnight") "S".
Proof.
  eexists. split; [vm_compute; reflexivity|].
  eapply (archive_stamp_matches_only_seconds_pattern utc_env "t" "a.log" "logs" INFO
            "midnight" 1 7 true None (set_clock T0 world0) (Some "t") configured_once
            0%nat [1%nat]).
  - vm_compute. reflexivity.
  - vm_compute. reflexivity.
  - vm_compute. reflexivity.
  - repeat constructor; vm_compute; congruence.
Defined.


Lemma emit_after_deadline_rotates_first_witness :
  ∃ x, heap due_world !! 0%nat = Some x ∧
  ∃ w', Handler_handle utc_env 0%nat (mk_record "t" INFO "later") due_world = Ok tt w' ∧
        content (baseFilename x) w' = Some ["t: later" +:+ terminator] ∧
        content (dfn_of x (timeTuple_of utc_env x (clock due_world))) w'
          = Some ["t: hello" +:+ terminator].
Proof.
  eexists. split; [vm_compute; reflexivity|].
  eapply (emit_after_deadline_rotates_first utc_env 0%nat _ (mk_record "t" INFO "later")
            "t: later" _ due_world rotated_world).
  - vm_compute. reflexivity.
  - reflexivity.
  - vm_compute. discriminate.
  - vm_compute. reflexivity.
  - vm_compute. discriminate.
  - vm_compute. reflexivity.
  - vm_compute. reflexivity.
  - reflexivity.
  - vm_compute. discriminate.
Defined.

Lemma log_never_raises_witness :
  match log utc_env (Some "t") INFO "hello" configured_once with
  | Ok _ w' => (∀ c', the_logger c' w' = the_logger c' configured_once) ∧
               dom (heap w') = dom (heap configured_once)
  | Raise _ _ => False
  | Diverge => True
  end.
Proof.
  apply (log_never_raises utc_env (Some "t") INFO "hello" configured_once).
  vm_compute. repeat constructor; by eexists.
Defined.
